(** * dag_servier: the bronze / silver / gold operators and their workflow graph

    A shallow embedding of [dags/custom_operator/custom_operator.py] and
    [dags/dag.py].  Python strings are [string]s of characters, with
    [str.lower] taken as given where the engine folds case, [pathlib.Path]
    values are lists of path components, the calls into [app.utils.utils]
    are boundary calls acting on an explicit world (local files, bucket
    blobs, and the log of the calls made), and a raised exception is the
    [Raise] constructor of the result type. *)

From stdpp Require Import gmap strings list fin_maps relations pretty.
From Stdlib Require Import Ascii.

Set Warnings "-clear-no-such-hyp".

(** ** Python strings *)

Module PyStr.

(** The lower-case form of an ASCII letter [A]..[Z]; any other character
    is returned as it is. *)
Definition lower_ascii (c : ascii) : ascii :=
  let n := nat_of_ascii c in
  if (65 <=? n)%nat && (n <=? 90)%nat then ascii_of_nat (n + 32) else c.

(** The lower-casing of ASCII text: [A]..[Z] go to [a]..[z] and every
    other character stays.  It is [s.lower()] on ASCII text only and
    serves the small run; the engine takes [str.lower] as given. *)
Fixpoint ascii_lower (s : string) : string :=
  match s with
  | EmptyString => EmptyString
  | String c s' => String (lower_ascii c) (ascii_lower s')
  end.

(** [sub in s]: some suffix of [s] starts with [sub]. *)
Fixpoint contains (sub s : string) : bool :=
  String.prefix sub s ||
  match s with
  | EmptyString => false
  | String _ s' => contains sub s'
  end.

(** The mathematical reading of [sub in s]. *)
Definition occurs_in (sub s : string) : Prop :=
  ∃ before after : string, s = before +:+ sub +:+ after.

(** [s.replace(old, new)] for one-character [old] and [new]. *)
Fixpoint replace_char (old new : ascii) (s : string) : string :=
  match s with
  | EmptyString => EmptyString
  | String c s' =>
      String (if Ascii.eqb c old then new else c) (replace_char old new s')
  end.

(** [s.rfind(c)], with [None] for Python's [-1]. *)
Fixpoint rfind (c : ascii) (s : string) : option nat :=
  match s with
  | EmptyString => None
  | String d s' =>
      match rfind c s' with
      | Some i => Some (S i)
      | None => if Ascii.eqb d c then Some 0%nat else None
      end
  end.

(** [s[:i]] *)
Definition take (i : nat) (s : string) : string := String.substring 0 i s.

(** [s.split(sep)] for a one-character [sep], empty pieces dropped. *)
Fixpoint split_nonempty (sep : ascii) (cur : string) (s : string) : list string :=
  match s with
  | EmptyString => if String.eqb cur "" then [] else [cur]
  | String c s' =>
      if Ascii.eqb c sep
      then (if String.eqb cur "" then [] else [cur]) ++ split_nonempty sep "" s'
      else split_nonempty sep (cur +:+ String c "") s'
  end.

End PyStr.

(** ** pathlib paths *)

(** An absolute path is the list of its components below the root; a
    component is a file or directory name and holds no separator. *)
Abbreviation Path := (list string).

Module PyPath.

(** [p / s] for a single component [s]. *)
Definition div (p : Path) (s : string) : Path := p ++ [s].

(** [p.parent]; the root is its own parent. *)
Definition parent (p : Path) : Path := removelast p.

(** [p.name]; empty for the root. *)
Definition name (p : Path) : string := List.last p "".

(** [p.stem]: the name without its last suffix.  A leading dot or a
    trailing dot does not start a suffix. *)
Definition stem (p : Path) : string :=
  let n := name p in
  match PyStr.rfind "."%char n with
  | Some i =>
      if (0 <? i)%nat && (i <? String.length n - 1)%nat
      then PyStr.take i n else n
  | None => n
  end.

(** [p.parents[k]] *)
Fixpoint parents (k : nat) (p : Path) : Path :=
  match k with
  | O => parent p
  | S k' => parents k' (parent p)
  end.

(** [str(p)] *)
Fixpoint to_str (p : Path) : string :=
  match p with
  | [] => ""
  | c :: p' => "/" +:+ c +:+ to_str p'
  end.

(** [Path(s)] for an absolute [s]. *)
Definition of_str (s : string) : Path := PyStr.split_nonempty "/"%char "" s.

(** The directories above [p], the root first: its proper prefixes. *)
Fixpoint ancestors (p : Path) : list Path :=
  match p with
  | [] => []
  | c :: p' => [] :: map (cons c) (ancestors p')
  end.

End PyPath.

Notation "p // s" := (PyPath.div p s) (at level 40, left associativity).

(** A function argument that accepts [str] or [Path]. *)
Inductive PathLike :=
  | PStr (s : string)
  | PPath (p : Path).

Definition fspath (x : PathLike) : Path :=
  match x with
  | PStr s => PyPath.of_str s
  | PPath p => p
  end.

(** ** Exceptions and the state monad of a task run *)

Inductive Fault :=
  | FileNotFoundError (p : Path)
  | NotADirectoryError (p : Path)
  | IsADirectoryError (p : Path)
  | BlobNotFound (bucket blob : string)
  | ValueError (msg : string)
  | DuplicateTaskIdFound (task_id : string)
  | OtherError (msg : string).

Inductive Exc (A : Type) :=
  | Ok (a : A)
  | Raise (e : Fault).
Arguments Ok {A} a.
Arguments Raise {A} e.

(** A computation over a state [S]: the state reached when an exception is
    raised is kept, as the effects made before a Python [raise] are. *)
Definition M (S A : Type) : Type := S → Exc A * S.

Definition ret {S A} (a : A) : M S A := λ s, (Ok a, s).

Definition bind {S A B} (c : M S A) (k : A → M S B) : M S B :=
  λ s, match c s with
       | (Ok a, s') => k a s'
       | (Raise e, s') => (Raise e, s')
       end.

Definition raise {S A} (e : Fault) : M S A := λ s, (Raise e, s).

Definition get {S} : M S S := λ s, (Ok s, s).

Definition modify {S} (f : S → S) : M S unit := λ s, (Ok tt, f s).

Notation "x <~ c ;; k" := (bind c (λ x, k))
  (at level 100, c at next level, right associativity).
Notation "c ;; k" := (bind c (λ _, k))
  (at level 100, right associativity).

(** [for x in xs: body(x)] *)
Fixpoint for_each {S A} (body : A → M S unit) (xs : list A) : M S unit :=
  match xs with
  | [] => ret tt
  | x :: xs' => body x ;; for_each body xs'
  end.

(** ** joblib and functools *)

(** [delayed(f)(x)]: the task, a function with its argument, not yet run. *)
Definition delayed {A B} (f : A → B) (x : A) : (A → B) * A := (f, x).

(** [Parallel(n_jobs)(tasks)].  With [n_jobs = 1] joblib runs the tasks one
    after the other in the calling process and appends each output to the
    result list; for every other [n_jobs] it returns the outputs in task
    order as well. *)
Definition Parallel {A B} (n_jobs : Z) (tasks : list ((A → B) * A)) : list B :=
  fold_left (λ output '(f, x), output ++ [f x]) tasks [].

(** [partial(f, elements_pubmed=p, elements_clinical_trials=c)] *)
Definition partial {A B C R} (f : A → B → C → R) (elements_pubmed : B)
    (elements_clinical_trials : C) : A → R :=
  λ drug, f drug elements_pubmed elements_clinical_trials.

(** ** The world of a task run and the boundary calls into [app.utils.utils] *)

(** The record types behind the lists that [utils.read_file] returns and
    [utils.reconciliation_data] builds. *)
Class Records := {
  Item : Type;
  RawItem : Type;
  Reconciled : Type;
}.

Section Boundary.
Context `{Records}.

(** What [utils.save_file] is asked to write. *)
Inductive Data :=
  | ValidItems (items : list Item)
  | InvalidItems (items : list RawItem)
  | ReconciledItems (items : list Reconciled).

(** The calls a task makes, in the order it makes them. *)
Inductive Call :=
  | CReadFile (file_path : Path) (type_of_schema : string)
  | CSaveFile (data : Data) (file_path : Path)
  | CGcsHandlerBlob (type_of_operation bucket_name : string)
      (local_file_name : PathLike) (gcs_file_name : string)
  | CRmtree (path : Path).

(** Local files by path, bucket blobs by bucket and blob name, and the log
    of calls.  A directory is there while a file lies beneath it. *)
Record World := {
  local : gmap Path string;
  remote : gmap (string * string) string;
  calls : list Call;
}.

Definition log (c : Call) (w : World) : World :=
  {| local := local w; remote := remote w; calls := calls w ++ [c] |}.

Definition set_local (f : gmap Path string) (w : World) : World :=
  {| local := f; remote := remote w; calls := calls w |}.

Definition set_remote (r : gmap (string * string) string) (w : World) : World :=
  {| local := local w; remote := r; calls := calls w |}.

(** [c] leaves every local file outside [P] and every blob outside [Q] as
    it was, whether it returns or raises. *)
Definition confined {A} (P : Path → Prop) (Q : string * string → Prop)
    (c : M World A) : Prop :=
  ∀ w r w', c w = (r, w') →
    (∀ q, ¬ P q → local w' !! q = local w !! q) ∧
    (∀ k, ¬ Q k → remote w' !! k = remote w !! k).

(** What the operators take from [app.utils.utils] as given: the outcome
    of reading and validating a file, the per-drug reconciliation, the
    serialisation of a record list, and the faults of the environment
    (permissions, network) that make a call raise. *)
Class Utils := {
  read_outcome : Path → string → World → Exc (list Item * list RawItem);
  reconciliation_data : Item → list Item → list Item → Reconciled;
  dumps : Data → string;
  fault : Call → World → option Fault;
}.

(** The valid partition of a read, or the fault it raised. *)
Definition valid_part (r : Exc (list Item * list RawItem)) : Exc (list Item) :=
  match r with
  | Ok (valid_items, _) => Ok valid_items
  | Raise e => Raise e
  end.

(** The same collaborators with another reader. *)
Definition with_read_outcome (U : Utils)
    (r : Path → string → World → Exc (list Item * list RawItem)) : Utils :=
  {| read_outcome := r;
     reconciliation_data := @reconciliation_data U;
     dumps := @dumps U;
     fault := @fault U |}.

Context `{!Utils}.

(** A call is logged when it is made; it raises at once when the
    environment faults. *)
Definition call (c : Call) : M World unit :=
  λ w, match fault c w with
       | Some e => (Raise e, log c w)
       | None => (Ok tt, log c w)
       end.

(** [utils.read_file(file_path, type_of_schema)]: the valid and the invalid
    records of the file. *)
Definition read_file (file_path : Path) (type_of_schema : string)
    : M World (list Item * list RawItem) :=
  λ w, (read_outcome file_path type_of_schema w,
        log (CReadFile file_path type_of_schema) w).

(** Some directory above [p] is a file. *)
Definition blocked (p : Path) (files : gmap Path string) : bool :=
  existsb (λ q, bool_decide (is_Some (files !! q))) (PyPath.ancestors p).

(** [d] is a directory: a file lies strictly beneath it. *)
Definition is_dir (d : Path) (files : gmap Path string) : bool :=
  negb (bool_decide (map_Forall (λ q _, ¬ (d `prefix_of` q ∧ q ≠ d)) files)).

(** Writing a local file creates the directories above it. *)
Definition write_local (p : Path) (content : string) : M World unit :=
  w <~ get ;;
  if blocked p (local w) then raise (NotADirectoryError p)
  else if is_dir p (local w) then raise (IsADirectoryError p)
  else modify (set_local (<[p := content]> (local w))).

(** Modelled from the spec: the body of [utils.save_file] is missing; it is
    the boundary call that persists a record set, here as a local file at
    [file_path] holding the serialised [data]. *)
Definition save_file (data : Data) (file_path : Path) : M World unit :=
  call (CSaveFile data file_path) ;;
  write_local file_path (dumps data).

(** Modelled from the spec: the body of [utils.gcs_handler_blob] is
    missing; it is the storage push/pull, ['push' for upload, 'pull' for
    download] in the operators' docstring, between a local file and a
    bucket blob. *)
Definition gcs_handler_blob (type_of_operation bucket_name : string)
    (local_file_name : PathLike) (gcs_file_name : string) : M World unit :=
  call (CGcsHandlerBlob type_of_operation bucket_name local_file_name gcs_file_name) ;;
  w <~ get ;;
  if String.eqb type_of_operation "push" then
    match local w !! fspath local_file_name with
    | Some content =>
        modify (set_remote (<[(bucket_name, gcs_file_name) := content]> (remote w)))
    | None => raise (FileNotFoundError (fspath local_file_name))
    end
  else if String.eqb type_of_operation "pull" then
    match remote w !! (bucket_name, gcs_file_name) with
    | Some content => write_local (fspath local_file_name) content
    | None => raise (BlobNotFound bucket_name gcs_file_name)
    end
  else raise (ValueError type_of_operation).

(** [shutil.rmtree(path)]: the directory and all beneath it are deleted. *)
Definition rmtree (path : Path) : M World unit :=
  call (CRmtree path) ;;
  w <~ get ;;
  if bool_decide (is_Some (local w !! path)) then raise (NotADirectoryError path)
  else if is_dir path (local w) then
    modify (set_local (filter (λ kv, ¬ path `prefix_of` kv.1) (local w)))
  else raise (FileNotFoundError path).

End Boundary.

(** ** The operators of [custom_operator.py] *)

Module PreprossecingBronzeData.

Record t := {
  type_of_operation : string;
  bucket_name : string;
  local_file_name : string;
  gcs_file_name : string;
}.

Section Execute.
Context `{Records} `{!Utils}.

Definition execute (self : t) : M World unit :=
  gcs_handler_blob (type_of_operation self) (bucket_name self)
    (PStr (local_file_name self)) (gcs_file_name self).

End Execute.

End PreprossecingBronzeData.

Module PreprossecingSilverData.

Record t := {
  type_of_schema : string;
  bucket_name : string;
  local_file_name : Path;
  prefix_gcs_file_name : string;
}.

Definition error_path_local (self : t) : Path :=
  PyPath.parent (local_file_name self) // "error"
    // (PyPath.stem (local_file_name self) +:+ "_error.json").

Definition valid_path_local (self : t) : Path :=
  PyPath.parent (local_file_name self) // "valid"
    // (PyPath.stem (local_file_name self) +:+ "_valid.json").

Definition error_path_gcs (self : t) : string :=
  prefix_gcs_file_name self +:+ "/" +:+ PyPath.name (error_path_local self).

Definition valid_path_gcs (self : t) : string :=
  prefix_gcs_file_name self +:+ "/" +:+ PyPath.name (valid_path_local self).

Section Execute.
Context `{Records} `{!Utils}.

Definition execute (self : t) : M World unit :=
  items <~ read_file (local_file_name self) (type_of_schema self) ;;
  let '(valid_items, invalid_items) := items in
  save_file (InvalidItems invalid_items) (error_path_local self) ;;
  save_file (ValidItems valid_items) (valid_path_local self) ;;
  gcs_handler_blob "push" (bucket_name self)
    (PPath (error_path_local self)) (error_path_gcs self) ;;
  gcs_handler_blob "push" (bucket_name self)
    (PPath (valid_path_local self)) (valid_path_gcs self) ;;
  rmtree (PyPath.parent (error_path_local self)) ;;
  rmtree (PyPath.parent (valid_path_local self)).

End Execute.

End PreprossecingSilverData.

Module PreprossecingGoldData.

Record t := {
  bucket_name : string;
  path_elements_drug : Path;
  path_elements_pubmed_json : Path;
  path_elements_pubmed_csv : Path;
  path_elements_clinical_trials : Path;
}.

(** [Path(__file__).resolve().parent / "reconciliated" / "drug_reconciliated.json"],
    [module_file] being the [__file__] of [custom_operator.py]. *)
Definition reconciliated_data_path (module_file : Path) : Path :=
  PyPath.parent module_file // "reconciliated" // "drug_reconciliated.json".

Section Execute.
Context `{Records} `{!Utils}.

(** Lines 241 to 250: the PubMed input, the per-drug function and the job
    pool over the valid drugs. *)
Definition reconcile_drugs (drug_valid_items pubmed_json_valid_items
    pubmed_csv_valid_items clinical_trials_valid_items : list Item)
    : list Reconciled :=
  let pubmed_valid := pubmed_json_valid_items ++ pubmed_csv_valid_items in
  let partial_function_mapping_drug :=
    partial reconciliation_data pubmed_valid clinical_trials_valid_items in
  Parallel 1
    (map (λ drug, delayed partial_function_mapping_drug drug) drug_valid_items).

(** Lines 225 to 240 on their own: the four reads, in the order made. *)
Definition read_sources (self : t)
    : M World ((list Item * list RawItem) * (list Item * list RawItem) *
               (list Item * list RawItem) * (list Item * list RawItem)) :=
  drug <~ read_file (path_elements_drug self)
            (PyPath.stem (path_elements_drug self)) ;;
  pubmed_json <~ read_file (path_elements_pubmed_json self)
                   (PyPath.stem (path_elements_pubmed_json self)) ;;
  pubmed_csv <~ read_file (path_elements_pubmed_csv self)
                  (PyPath.stem (path_elements_pubmed_csv self)) ;;
  clinical_trials <~ read_file (path_elements_clinical_trials self)
                       (PyPath.stem (path_elements_clinical_trials self)) ;;
  ret (drug, pubmed_json, pubmed_csv, clinical_trials).

Definition execute (module_file : Path) (self : t) : M World unit :=
  drug <~ read_file (path_elements_drug self)
            (PyPath.stem (path_elements_drug self)) ;;
  let '(drug_valid_items, _) := drug in
  pubmed_json <~ read_file (path_elements_pubmed_json self)
                   (PyPath.stem (path_elements_pubmed_json self)) ;;
  let '(pubmed_json_valid_items, _) := pubmed_json in
  pubmed_csv <~ read_file (path_elements_pubmed_csv self)
                  (PyPath.stem (path_elements_pubmed_csv self)) ;;
  let '(pubmed_csv_valid_items, _) := pubmed_csv in
  clinical_trials <~ read_file (path_elements_clinical_trials self)
                       (PyPath.stem (path_elements_clinical_trials self)) ;;
  let '(clinical_trials_valid_items, _) := clinical_trials in
  let drugs_reconciliated :=
    reconcile_drugs drug_valid_items pubmed_json_valid_items
      pubmed_csv_valid_items clinical_trials_valid_items in
  save_file (ReconciledItems drugs_reconciliated)
    (reconciliated_data_path module_file) ;;
  gcs_handler_blob "push" (bucket_name self)
    (PPath (reconciliated_data_path module_file))
    (PyPath.name (reconciliated_data_path module_file)) ;;
  rmtree (PyPath.parent (reconciliated_data_path module_file)).

End Execute.

End PreprossecingGoldData.

(** ** The workflow graph of [dag.py] *)

Module Airflow.

Inductive Operator :=
  | DummyOperator
  | BronzeOperator (op : PreprossecingBronzeData.t)
  | SilverOperator (op : PreprossecingSilverData.t)
  | GoldOperator (op : PreprossecingGoldData.t).

(** A DAG: its tasks by [task_id] and the dependency edges (upstream,
    downstream) between task ids. *)
Record DAG := {
  tasks : gmap string Operator;
  edges : gset (string * string);
}.

Definition empty : DAG := {| tasks := ∅; edges := ∅ |}.

(** Creating an operator with [dag=...] adds the task; a second task with
    the same [task_id] is refused. *)
Definition add_task (task_id : string) (op : Operator) : M DAG string :=
  d <~ get ;;
  match tasks d !! task_id with
  | Some _ => raise (DuplicateTaskIdFound task_id)
  | None =>
      modify (λ d, {| tasks := <[task_id := op]> (tasks d); edges := edges d |}) ;;
      ret task_id
  end.

(** [a >> b]: [b] is set downstream of [a]; the value is [b]. *)
Definition rshift (a b : string) : M DAG string :=
  modify (λ d, {| tasks := tasks d; edges := {[ (a, b) ]} ∪ edges d |}) ;;
  ret b.

(** The tasks directly upstream of [t]. *)
Definition upstream (d : DAG) (t : string) : gset string :=
  set_map fst (filter (λ e, e.2 = t) (edges d)).

(** A run of the graph: the tasks started so far and those that ended in
    success.  With the default trigger rule a task is started once all
    its upstream tasks have succeeded; a task that fails stays started. *)
Record Run := {
  started : gset string;
  succeeded : gset string;
}.

Definition initial : Run := {| started := ∅; succeeded := ∅ |}.

Inductive step (d : DAG) : Run → Run → Prop :=
  | step_start r t :
      is_Some (tasks d !! t) →
      t ∉ started r →
      upstream d t ⊆ succeeded r →
      step d r {| started := {[ t ]} ∪ started r; succeeded := succeeded r |}
  | step_success r t :
      t ∈ started r →
      step d r {| started := started r; succeeded := {[ t ]} ∪ succeeded r |}.

Definition reachable (d : DAG) (r : Run) : Prop := rtc (step d) initial r.

(** [ts] can be run one task after the other, each to success, once the
    tasks of [finished] have succeeded. *)
Fixpoint schedule_from (d : DAG) (finished : gset string) (ts : list string) : bool :=
  match ts with
  | [] => true
  | t :: ts' =>
      bool_decide (is_Some (tasks d !! t)) &&
      bool_decide (t ∉ finished) &&
      bool_decide (upstream d t ⊆ finished) &&
      schedule_from d ({[ t ]} ∪ finished) ts'
  end.

End Airflow.

Module DagServier.

Import Airflow.

(** [root] is the directory the repository is deployed in: [dag.py] is
    [root/dags/dag.py] and the operators' module is
    [root/dags/custom_operator/custom_operator.py]. *)
Definition dag_file (root : Path) : Path := root // "dags" // "dag.py".

Definition custom_operator_file (root : Path) : Path :=
  root // "dags" // "custom_operator" // "custom_operator.py".

Definition path_parent_folder_file (root : Path) : Path :=
  PyPath.parents 1 (dag_file root).

Definition path_file_clinical_trials (root : Path) : Path :=
  path_parent_folder_file root // "file" // "clinical_trials.csv".

Definition path_drugs (root : Path) : Path :=
  path_parent_folder_file root // "file" // "drugs.csv".

Definition path_file_pubmed_csv (root : Path) : Path :=
  path_parent_folder_file root // "file" // "pubmed.csv".

Definition path_file_pubmed_json (root : Path) : Path :=
  path_parent_folder_file root // "file" // "pubmed.json".

(** The members of the set [all_paths_local], in the order of the source. *)
Definition all_paths_local (root : Path) : list Path :=
  [ path_file_clinical_trials root; path_drugs root;
    path_file_pubmed_csv root; path_file_pubmed_json root ].

Definition gold_operator (root : Path) : PreprossecingGoldData.t :=
  {| PreprossecingGoldData.bucket_name := "servier-gold";
     PreprossecingGoldData.path_elements_drug := path_drugs root;
     PreprossecingGoldData.path_elements_pubmed_json := path_file_pubmed_json root;
     PreprossecingGoldData.path_elements_pubmed_csv := path_file_pubmed_csv root;
     PreprossecingGoldData.path_elements_clinical_trials :=
       path_file_clinical_trials root |}.

Definition bronze_operator (path_local_file : Path) : PreprossecingBronzeData.t :=
  {| PreprossecingBronzeData.type_of_operation := "push";
     PreprossecingBronzeData.bucket_name := "servier-bronze";
     PreprossecingBronzeData.local_file_name := PyPath.to_str path_local_file;
     PreprossecingBronzeData.gcs_file_name :=
       PyPath.stem path_local_file +:+ "/" +:+ PyPath.name path_local_file |}.

Definition silver_operator (path_local_file : Path) : PreprossecingSilverData.t :=
  {| PreprossecingSilverData.bucket_name := "servier-silver";
     PreprossecingSilverData.type_of_schema := PyPath.stem path_local_file;
     PreprossecingSilverData.local_file_name := path_local_file;
     PreprossecingSilverData.prefix_gcs_file_name := PyPath.stem path_local_file |}.

Definition bronze_task_id (path_local_file : Path) : string :=
  PyStr.replace_char "." "_"
    ("push_raw_data_to_gcs_" +:+ PyPath.name path_local_file).

Definition silver_task_id (path_local_file : Path) : string :=
  PyStr.replace_char "." "_"
    ("push_silver_data_to_gcs_" +:+ PyPath.name path_local_file).

Definition gold_task_id : string := "push_gold_data_to_gcs_reconcialted_data".

(** The body of the loop over [all_paths_local]. *)
Definition wire (start_point end_point task_push_gold_data : string)
    (path_local_file : Path) : M DAG unit :=
  task_push_bronze_data <~
    add_task (bronze_task_id path_local_file)
      (BronzeOperator (bronze_operator path_local_file)) ;;
  task_push_silver_data <~
    add_task (silver_task_id path_local_file)
      (SilverOperator (silver_operator path_local_file)) ;;
  t1 <~ rshift start_point task_push_bronze_data ;;
  t2 <~ rshift t1 task_push_silver_data ;;
  t3 <~ rshift t2 task_push_gold_data ;;
  rshift t3 end_point ;;
  ret tt.

(** The body of [with DAG("dag_servier", ...) as dag_servier]; [order] is
    the order in which the set [all_paths_local] is iterated, which Python
    leaves open. *)
Definition build (root : Path) (order : list Path) : M DAG unit :=
  start_point <~ add_task "start_point" DummyOperator ;;
  end_point <~ add_task "end_point" DummyOperator ;;
  task_push_gold_data <~
    add_task gold_task_id (GoldOperator (gold_operator root)) ;;
  for_each (wire start_point end_point task_push_gold_data) order.

(** The graph before the loop: the two end points and the gold task. *)
Definition seeded (root : Path) : DAG :=
  {| tasks := <[gold_task_id := GoldOperator (gold_operator root)]>
                (<["end_point" := DummyOperator]>
                   (<["start_point" := DummyOperator]> ∅));
     edges := ∅ |}.

(** The graph after one pass of the loop body. *)
Definition wired (start_point end_point task_push_gold_data : string)
    (d : DAG) (path_local_file : Path) : DAG :=
  let bronze := bronze_task_id path_local_file in
  let silver := silver_task_id path_local_file in
  {| tasks := <[silver := SilverOperator (silver_operator path_local_file)]>
                (<[bronze := BronzeOperator (bronze_operator path_local_file)]>
                   (tasks d));
     edges := {[ (task_push_gold_data, end_point) ]} ∪
              ({[ (silver, task_push_gold_data) ]} ∪
               ({[ (bronze, silver) ]} ∪
                ({[ (start_point, bronze) ]} ∪ edges d))) |}.

(** The tasks stage by stage: the start, the bronze tasks, the silver
    tasks, the gold task, the end. *)
Definition stage_order (order : list Path) : list string :=
  "start_point" :: map bronze_task_id order ++ map silver_task_id order ++
  [gold_task_id; "end_point"].

(** The task ids the loop creates. *)
Definition loop_task_ids (order : list Path) : list string :=
  flat_map (λ p, [bronze_task_id p; silver_task_id p]) order.

End DagServier.

(** ** The reconciliation engine *)

Module Reconciliation.

(** Drug: [{ atccode/id, name }]. *)
Record Drug := {
  atccode : string;
  name : string;
}.

(** Mention, the shape shared by PubMed and clinical-trials rows:
    [{ id, title, journal, date }]. *)
Record Mention := {
  id : string;
  title : string;
  journal : string;
  date : string;
}.

(** The input sequence a mention was found in. *)
Inductive Origin :=
  | pubmed
  | clinical_trials.

(** A provenance entry: [{title, date, journal, source-origin}]. *)
Record Provenance := {
  entry_title : string;
  entry_date : string;
  entry_journal : string;
  entry_origin : Origin;
}.

(** ReconciliationResult: [{ drug, journals, mentions }], the journals a
    mapping from journal name to the set of distinct dates. *)
Record ReconciliationResult := {
  drug : Drug;
  journals : gmap string (gset string);
  mentions : list Provenance;
}.

(** A validated record as the operators hold it: a drug, or a mention of
    PubMed or of clinical-trials origin. *)
Inductive Entity :=
  | EDrug (d : Drug)
  | EMention (m : Mention).

Definition records : Records :=
  {| Item := Entity; RawItem := string; Reconciled := ReconciliationResult |}.

(** A record that is no drug has no drug name. *)
Definition as_drug (e : Entity) : Drug :=
  match e with
  | EDrug d => d
  | EMention m => {| atccode := id m; name := "" |}
  end.

(** The mentions among the records of an input sequence. *)
Definition as_mentions (es : list Entity) : list Mention :=
  omap (λ e, match e with EMention m => Some m | EDrug _ => None end) es.

Definition provenance (o : Origin) (m : Mention) : Provenance :=
  {| entry_title := title m; entry_date := date m;
     entry_journal := journal m; entry_origin := o |}.

(** Step 3: for each journal seen, the set of distinct dates. *)
Definition group_by_journal (entries : list Provenance) : gmap string (gset string) :=
  fold_left
    (λ acc e,
       <[entry_journal e := {[ entry_date e ]} ∪ default ∅ (acc !! entry_journal e)]> acc)
    entries ∅.

Section Engine.

(** Python's [str.lower], taken as given: the case table of Unicode is no
    part of the program.  Every statement about the engine holds for
    whatever function stands here. *)
Variable lower : string → string.

(** Modelled from the spec: the match rule of section 4.3.  A mention
    matches when [drug.name.lower()] occurs in [mention.title.lower()]; an
    empty drug name never matches. *)
Definition matches (d : Drug) (m : Mention) : bool :=
  negb (String.eqb (name d) "") &&
  PyStr.contains (lower (name d)) (lower (title m)).

(** Modelled from the spec: [reconcile(drug, pubmed_mentions,
    clinical_mentions)] of section 4.3: every matching mention gives one
    provenance entry tagged with its origin, and the matches are grouped by
    journal. *)
Definition reconcile (d : Drug) (elements_pubmed
    elements_clinical_trials : list Mention) : ReconciliationResult :=
  let entries :=
    map (provenance pubmed) (List.filter (matches d) elements_pubmed) ++
    map (provenance clinical_trials)
      (List.filter (matches d) elements_clinical_trials) in
  {| drug := d; journals := group_by_journal entries; mentions := entries |}.

(** Modelled from the spec: the body of [utils.reconciliation_data] is
    missing; this is the function the gold stage closes over its two
    mention sequences and maps over the valid drugs, [reconcile] on the
    validated records. *)
Definition reconciliation_data (drug : Entity) (elements_pubmed
    elements_clinical_trials : list Entity) : ReconciliationResult :=
  reconcile (as_drug drug) (as_mentions elements_pubmed)
    (as_mentions elements_clinical_trials).

(** The collaborators of the operators with this engine as the per-drug
    function; the reader, the serialiser and the faults stay as given. *)
Definition utils
    (read_outcome : Path → string → @World records → Exc (list Entity * list string))
    (dumps : @Data records → string)
    (fault : @Call records → @World records → option Fault) : @Utils records :=
  @Build_Utils records read_outcome reconciliation_data dumps fault.

End Engine.

End Reconciliation.

(** ** A small run, used to exercise the statements below *)

Module Demo.

Import Reconciliation.

Abbreviation Entity := Reconciliation.Entity.

Abbreviation EDrug := Reconciliation.EDrug.

Abbreviation EMention := Reconciliation.EMention.

Definition records : Records := Reconciliation.records.

Definition aspirin : Drug := {| atccode := "d1"; name := "Aspirin" |}.

Definition betaline : Drug := {| atccode := "d2"; name := "Betaline" |}.

Definition nameless : Drug := {| atccode := "d3"; name := "" |}.

Definition nejm : Mention :=
  {| id := "1"; title := "Aspirin reduces risk"; journal := "NEJM";
     date := "2020-01-01" |}.

Definition lancet : Mention :=
  {| id := "2"; title := "Use of ASPIRIN in adults"; journal := "Lancet";
     date := "2020-02-02" |}.

Definition trial : Mention :=
  {| id := "NCT1"; title := "Tetracycline for fever"; journal := "NEJM";
     date := "2020-03-03" |}.

(** A reader that fails on a missing or empty file and otherwise returns a
    fixed split for each schema kind. *)
Definition read (file_path : Path) (type_of_schema : string)
    (w : @World records) : Exc (list Entity * list string) :=
  match local w !! file_path with
  | None => Raise (FileNotFoundError file_path)
  | Some text =>
      if String.eqb text "" then Raise (ValueError "malformed input")
      else if String.eqb type_of_schema "drugs"
      then Ok ([EDrug aspirin; EDrug betaline], ["d9,"])
      else if String.eqb type_of_schema "pubmed"
      then Ok ([EMention nejm; EMention lancet], [])
      else if String.eqb type_of_schema "clinical_trials"
      then Ok ([EMention trial], ["NCT2,,,"])
      else Raise (ValueError type_of_schema)
  end.

(** The same reader with the rejected rows left out. *)
Definition read_without_rejects (file_path : Path) (type_of_schema : string)
    (w : @World records) : Exc (list Entity * list string) :=
  match read file_path type_of_schema w with
  | Ok (valid_items, _) => Ok (valid_items, [])
  | Raise e => Raise e
  end.

Definition render (d : @Data records) : string :=
  match d with
  | ValidItems items => "valid " +:+ pretty (length items)
  | InvalidItems items => "invalid " +:+ pretty (length items)
  | ReconciledItems items => "reconciled " +:+ pretty (length items)
  end.

Definition utils : @Utils records :=
  Reconciliation.utils PyStr.ascii_lower read render (λ _ _, None).

(** The same collaborators with the bucket out of reach: every storage call
    raises. *)
Definition offline_utils : @Utils records :=
  Reconciliation.utils PyStr.ascii_lower read render
    (λ c _, match c with
            | CGcsHandlerBlob _ _ _ _ => Some (OtherError "bucket out of reach")
            | _ => None
            end).

(** The same collaborators over files that hold no record at all. *)
Definition empty_utils : @Utils records :=
  with_read_outcome utils (λ _ _ _, Ok ([], [])).

Definition root : Path := ["opt"; "airflow"].

(** The four source files are there, nothing else. *)
Definition world : @World records :=
  {| local := list_to_map
       (map (λ p, (p, "rows")) (DagServier.all_paths_local root));
     remote := ∅;
     calls := [] |}.

(** The same with an unreadable [drugs.csv]. *)
Definition broken_world : @World records :=
  {| local := <[DagServier.path_drugs root := ""]> (local world);
     remote := ∅;
     calls := [] |}.

Definition silver_drugs : PreprossecingSilverData.t :=
  DagServier.silver_operator (DagServier.path_drugs root).

Definition gold : PreprossecingGoldData.t := DagServier.gold_operator root.

Definition module_file : Path := DagServier.custom_operator_file root.

(** A gold operator whose drug file lies in the directory the gold stage
    writes to and removes, and a world that holds that file too. *)
Definition misplaced_drugs : Path :=
  PyPath.parent module_file // "reconciliated" // "drugs.csv".

Definition misplaced_gold : PreprossecingGoldData.t :=
  {| PreprossecingGoldData.bucket_name := "servier-gold";
     PreprossecingGoldData.path_elements_drug := misplaced_drugs;
     PreprossecingGoldData.path_elements_pubmed_json :=
       DagServier.path_file_pubmed_json root;
     PreprossecingGoldData.path_elements_pubmed_csv :=
       DagServier.path_file_pubmed_csv root;
     PreprossecingGoldData.path_elements_clinical_trials :=
       DagServier.path_file_clinical_trials root |}.

Definition misplaced_world : @World records :=
  {| local := <[misplaced_drugs := "rows"]> (local world);
     remote := ∅;
     calls := [] |}.

End Demo.

(** * Properties *)

(** ** Strings and paths *)

Section StringAndPathFacts.

Lemma append_cons (c : ascii) (a b : string) :
  String c a +:+ b = String c (a +:+ b).
Proof. reflexivity. Qed.

Lemma prefix_true_iff (a s : string) :
  String.prefix a s = true ↔ ∃ rest, s = a +:+ rest.
Proof.
  revert s. induction a as [|x a IH]; intros s.
  - split; [intros _; by exists s | by destruct s].
  - destruct s as [|y s]; simpl.
    + split; [done | by intros [rest ?]].
    + setoid_rewrite append_cons.
      destruct (Ascii.ascii_dec x y) as [->|Hne].
      * rewrite IH. split; intros [rest Hr]; exists rest; congruence.
      * split; [done | intros [rest Hr]; congruence].
Qed.

(** Python's [sub in s] is the substring relation. *)
Lemma contains_occurs_in (sub s : string) :
  PyStr.contains sub s = true ↔ PyStr.occurs_in sub s.
Proof.
  unfold PyStr.occurs_in. induction s as [|c s IH].
  - cbn [PyStr.contains]. rewrite orb_false_r, prefix_true_iff. split.
    + intros [rest Hr]. by exists "", rest.
    + intros ([|? before] & after & Hs); [by exists after | done].
  - cbn [PyStr.contains]. rewrite orb_true_iff, prefix_true_iff, IH. split.
    + intros [[rest Hr] | (before & after & Hs)].
      * by exists "", rest.
      * exists (String c before), after. by rewrite append_cons, Hs.
    + intros ([|x before] & after & Hs).
      * left. by exists after.
      * right. exists before, after. rewrite append_cons in Hs. congruence.
Qed.

Lemma last_snoc (p : Path) (s : string) : List.last (p ++ [s]) "" = s.
Proof. induction p as [|c [|c' p] IH]; simpl in *; done. Qed.

Lemma name_div (p : Path) (s : string) : PyPath.name (p // s) = s.
Proof. apply last_snoc. Qed.

Lemma parent_div (p : Path) (s : string) : PyPath.parent (p // s) = p.
Proof. apply removelast_last. Qed.

Lemma stem_div (p : Path) (s : string) : PyPath.stem (p // s) = PyPath.stem [s].
Proof. unfold PyPath.stem. by rewrite name_div. Qed.

Lemma div_inj (p q : Path) (s t : string) : p // s = q // t → p = q ∧ s = t.
Proof. unfold PyPath.div. intros Heq. by apply app_inj_tail in Heq. Qed.

Lemma prefix_of_div_self (p : Path) (s : string) : p `prefix_of` p // s.
Proof. by exists [s]. Qed.

Lemma div_ne_self (p : Path) (s : string) : p // s ≠ p.
Proof.
  unfold PyPath.div. intros Heq. apply (f_equal length) in Heq.
  rewrite length_app in Heq. simpl in Heq. lia.
Qed.

Lemma length_parent (p : Path) : length p ≤ S (length (PyPath.parent p)).
Proof.
  unfold PyPath.parent. destruct p as [|c p] using rev_ind; [simpl; lia |].
  rewrite removelast_last, length_app. simpl. lia.
Qed.

(** A path lies under a sibling directory only by being that directory. *)
Lemma under_sibling (p : Path) (dir : string) :
  PyPath.parent p // dir `prefix_of` p → p = PyPath.parent p // dir.
Proof.
  intros Hpre. symmetry. apply prefix_length_eq; [done |].
  pose proof (length_parent p). unfold PyPath.div. rewrite length_app. simpl. lia.
Qed.

(** A file two levels below the parent of a path is not that path. *)
Lemma nephew_ne (p : Path) (dir file : string) : PyPath.parent p // dir // file ≠ p.
Proof.
  intros Heq. apply (f_equal length) in Heq. pose proof (length_parent p).
  unfold PyPath.div in Heq. rewrite !length_app in Heq. simpl in Heq. lia.
Qed.

(** Directories of different names under one parent hold different trees. *)
Lemma sibling_not_above (p : Path) (a b c : string) :
  a ≠ b → ¬ p // a `prefix_of` p // b // c.
Proof.
  intros Hne. unfold PyPath.div. rewrite <- app_assoc.
  intros Hpre%prefix_app_inv. simpl in Hpre. by apply prefix_cons_inv_1 in Hpre.
Qed.

Lemma cousin_not_above (p : Path) (a b c d : string) :
  a ≠ b → ¬ p // a // c `prefix_of` p // b // d.
Proof.
  intros Hne. unfold PyPath.div. rewrite <- !app_assoc.
  intros Hpre%prefix_app_inv. simpl in Hpre. by apply prefix_cons_inv_1 in Hpre.
Qed.

(** The ancestors of a path are its proper prefixes. *)
Lemma elem_of_ancestors (q p : Path) :
  q ∈ PyPath.ancestors p ↔ q `prefix_of` p ∧ q ≠ p.
Proof.
  revert q. induction p as [|c p IH]; intros q; simpl.
  - split; [by intros ?%elem_of_nil |].
    intros [[k Hk] Hne]. by destruct q.
  - rewrite elem_of_cons, list_elem_of_fmap. split.
    + intros [-> | (q' & -> & Hq')]; [split; [apply prefix_nil | done] |].
      apply IH in Hq' as [Hpre Hne]. split; [by apply prefix_cons | congruence].
    + intros [Hpre Hne]. destruct q as [|c' q]; [by left | right].
      pose proof (prefix_cons_inv_1 _ _ _ _ Hpre) as ->.
      apply prefix_cons_inv_2 in Hpre. exists q. split; [done |].
      apply IH. split; [done | congruence].
Qed.

(** A directory is an ancestor of every file written one level below it. *)
Lemma dir_in_ancestors (d : Path) (s : string) : d ∈ PyPath.ancestors (d // s).
Proof.
  apply elem_of_ancestors. split; [apply prefix_of_div_self |].
  intros Heq. by apply (div_ne_self d s).
Qed.

Example stem_pubmed_csv : PyPath.stem ["file"; "pubmed.csv"] = "pubmed".
Proof. reflexivity. Qed.

Example stem_hidden_file : PyPath.stem ["home"; ".bashrc"] = ".bashrc".
Proof. reflexivity. Qed.

Example stem_two_suffixes : PyPath.stem ["a.tar.gz"] = "a.tar".
Proof. reflexivity. Qed.

Example path_of_its_str :
  PyPath.of_str (PyPath.to_str ["opt"; "airflow"; "file"; "drugs.csv"])
  = ["opt"; "airflow"; "file"; "drugs.csv"].
Proof. reflexivity. Qed.

Example contains_after_lower :
  PyStr.contains (PyStr.ascii_lower "Aspirin")
    (PyStr.ascii_lower "Use of ASPIRIN in adults")
  = true.
Proof. reflexivity. Qed.

Example contains_empty : PyStr.contains "" "any title" = true.
Proof. reflexivity. Qed.

End StringAndPathFacts.

(** ** The job pool *)

Section ParallelFacts.
Context {A B : Type}.

Lemma Parallel_from (n_jobs : Z) (f : A → B) (xs : list A) (output : list B) :
  fold_left (λ output '(g, x), output ++ [g x]) (map (delayed f) xs) output
  = output ++ map f xs.
Proof.
  revert output. induction xs as [|x xs IH]; intros output; simpl.
  - by rewrite app_nil_r.
  - rewrite IH. by rewrite <- app_assoc.
Qed.

(** The pool returns the outputs of the tasks in task order. *)
Lemma Parallel_delayed (n_jobs : Z) (f : A → B) (xs : list A) :
  Parallel n_jobs (map (λ x, delayed f x) xs) = map f xs.
Proof. unfold Parallel. by rewrite (Parallel_from n_jobs). Qed.

End ParallelFacts.

(** ** The reconciliation engine *)

Section ReconciliationFacts.
Import Reconciliation.
Variable lower : string → string.

Lemma matches_iff (d : Drug) (m : Mention) :
  matches lower d m = true ↔
  name d ≠ "" ∧ PyStr.occurs_in (lower (name d)) (lower (title m)).
Proof.
  unfold matches. rewrite andb_true_iff, negb_true_iff, contains_occurs_in.
  by rewrite String.eqb_neq.
Qed.

Lemma matches_title (d : Drug) (m m' : Mention) :
  title m = title m' → matches lower d m = matches lower d m'.
Proof. unfold matches. by intros ->. Qed.

(** An entry of origin [o] for [m] is among the entries built from a
    sequence exactly when [m] matches, for [m] in that sequence. *)
Lemma provenance_in_matching (d : Drug) (o : Origin) (m : Mention) (ms : list Mention) :
  m ∈ ms →
  provenance o m ∈ map (provenance o) (List.filter (matches lower d) ms)
  ↔ matches lower d m = true.
Proof.
  intros Hm. rewrite list_elem_of_fmap. split.
  - intros (m' & Heq & Hin). apply list_elem_of_In, filter_In in Hin as [_ Hin].
    rewrite <- Hin. apply matches_title. by injection Heq.
  - intros Hmatch. exists m. split; [done |].
    apply list_elem_of_In, filter_In. by rewrite <- list_elem_of_In.
Qed.

Lemma provenance_other_origin (d : Drug) (o o' : Origin) (m : Mention) (ms : list Mention) :
  o ≠ o' → provenance o m ∉ map (provenance o') (List.filter (matches lower d) ms).
Proof.
  intros Hne (m' & Heq & _)%list_elem_of_fmap. by injection Heq.
Qed.

(** The match law on the typed engine: for a drug with a name, the entry
    of a mention of either input is in the result exactly when the lowered
    name occurs in the lowered title. *)
Lemma reconcile_mentions_law (d : Drug) (ps cs : list Mention) (m : Mention) :
  name d ≠ "" →
  (m ∈ ps →
     provenance pubmed m ∈ mentions (reconcile lower d ps cs) ↔
     PyStr.occurs_in (lower (name d)) (lower (title m))) ∧
  (m ∈ cs →
     provenance clinical_trials m ∈ mentions (reconcile lower d ps cs) ↔
     PyStr.occurs_in (lower (name d)) (lower (title m))).
Proof.
  intros Hname. unfold reconcile; cbn [mentions].
  split; intros Hin; rewrite elem_of_app.
  - rewrite (provenance_in_matching _ _ _ _ Hin), matches_iff. split.
    + intros [[_ Hocc] | Hother]; [done |].
      by apply provenance_other_origin in Hother.
    + intros Hocc. by left.
  - rewrite (provenance_in_matching _ _ _ _ Hin), matches_iff. split.
    + intros [Hother | [_ Hocc]]; [| done].
      by apply provenance_other_origin in Hother.
    + intros Hocc. by right.
Qed.

Lemma elem_of_as_mentions (m : Mention) (es : list Entity) :
  EMention m ∈ es → m ∈ as_mentions es.
Proof.
  intros Hm. unfold as_mentions. apply list_elem_of_omap.
  by exists (EMention m).
Qed.

(** An empty drug name never matches. *)
Lemma reconcile_nameless (d : Drug) (ps cs : list Mention) :
  name d = "" →
  mentions (reconcile lower d ps cs) = [] ∧ journals (reconcile lower d ps cs) = ∅.
Proof.
  intros Hname.
  assert (Hnone : ∀ ms, List.filter (matches lower d) ms = []).
  { intros ms. induction ms as [|m ms IH]; [done |].
    simpl. unfold matches at 1. by rewrite Hname, IH. }
  unfold reconcile. simpl. by rewrite !Hnone.
Qed.

End ReconciliationFacts.

Section ReconciliationExamples.
Import Reconciliation.

Example reconcile_nameless_demo :
  mentions (reconcile PyStr.ascii_lower Demo.nameless [Demo.nejm; Demo.lancet]
              [Demo.trial]) = [].
Proof. reflexivity. Qed.

(** The two end-to-end scenarios of the specification. *)
Example scenario_aspirin :
  reconcile PyStr.ascii_lower {| atccode := "d1"; name := "Aspirin" |}
    [ {| id := ""; title := "Aspirin reduces risk"; journal := "NEJM";
         date := "2020-01-01" |} ] []
  = {| drug := {| atccode := "d1"; name := "Aspirin" |};
       journals := {[ "NEJM" := {[ "2020-01-01" ]} ]};
       mentions := [ {| entry_title := "Aspirin reduces risk";
                        entry_date := "2020-01-01"; entry_journal := "NEJM";
                        entry_origin := pubmed |} ] |}.
Proof. by vm_compute. Qed.

Example scenario_betaline :
  reconcile PyStr.ascii_lower {| atccode := "d2"; name := "Betaline" |} [] []
  = {| drug := {| atccode := "d2"; name := "Betaline" |};
       journals := ∅; mentions := [] |}.
Proof. reflexivity. Qed.

End ReconciliationExamples.

(** ** The boundary calls *)

Section BoundaryFacts.
Context `{Records} `{!Utils}.

Lemma bind_ok {S A B} (c : M S A) (k : A → M S B) (s s' : S) (b : B) :
  bind c k s = (Ok b, s') → ∃ a s1, c s = (Ok a, s1) ∧ k a s1 = (Ok b, s').
Proof. unfold bind. destruct (c s) as [[a|e] s1]; [eauto | done]. Qed.

Lemma bind_raise {S A B} (c : M S A) (k : A → M S B) (s s' : S) (e : Fault) :
  c s = (Raise e, s') → bind c k s = (Raise e, s').
Proof. unfold bind. by intros ->. Qed.

Lemma call_ok (c : Call) (w w' : World) (u : unit) :
  call c w = (Ok u, w') → fault c w = None ∧ w' = log c w.
Proof. unfold call. destruct (fault c w); naive_solver. Qed.

Lemma write_local_ok (p : Path) (content : string) (w w' : World) (u : unit) :
  write_local p content w = (Ok u, w') →
  blocked p (local w) = false ∧ is_dir p (local w) = false ∧
  w' = set_local (<[p := content]> (local w)) w.
Proof.
  unfold write_local, bind, get, raise, modify.
  destruct (blocked p (local w)), (is_dir p (local w)); naive_solver.
Qed.

Lemma save_file_ok (data : Data) (p : Path) (w w' : World) (u : unit) :
  save_file data p w = (Ok u, w') →
  fault (CSaveFile data p) w = None ∧
  blocked p (local w) = false ∧
  w' = set_local (<[p := dumps data]> (local w)) (log (CSaveFile data p) w).
Proof.
  unfold save_file. intros (? & w1 & Hcall & Hwrite)%bind_ok.
  apply call_ok in Hcall as [Hfault ->].
  apply write_local_ok in Hwrite as (Hblocked & _ & ->). done.
Qed.

Lemma push_ok (bucket blob : string) (p : Path) (w w' : World) (u : unit) :
  gcs_handler_blob "push" bucket (PPath p) blob w = (Ok u, w') →
  fault (CGcsHandlerBlob "push" bucket (PPath p) blob) w = None ∧
  ∃ content, local w !! p = Some content ∧
    w' = set_remote (<[(bucket, blob) := content]> (remote w))
           (log (CGcsHandlerBlob "push" bucket (PPath p) blob) w).
Proof.
  unfold gcs_handler_blob. intros (? & w1 & Hcall & Hpush)%bind_ok.
  apply call_ok in Hcall as [Hfault ->]. split; [done |].
  unfold bind, get, raise, modify in Hpush. simpl in Hpush.
  destruct (local w !! p) as [content|]; [| done].
  exists content. naive_solver.
Qed.

Lemma rmtree_ok (d : Path) (w w' : World) (u : unit) :
  rmtree d w = (Ok u, w') →
  fault (CRmtree d) w = None ∧
  local w !! d = None ∧
  w' = set_local (filter (λ kv, ¬ d `prefix_of` kv.1) (local w)) (log (CRmtree d) w).
Proof.
  unfold rmtree. intros (? & w1 & Hcall & Hrm)%bind_ok.
  apply call_ok in Hcall as [Hfault ->].
  unfold bind, get, raise, modify in Hrm. simpl in Hrm.
  case_bool_decide as Hfile; [done |].
  destruct (is_dir d (local w)); [| done].
  split_and!; [done | | naive_solver].
  by apply eq_None_not_Some.
Qed.

(** A path that is not blocked has no file among its ancestors. *)
Lemma blocked_false (p q : Path) (files : gmap Path string) :
  blocked p files = false → q ∈ PyPath.ancestors p → files !! q = None.
Proof.
  unfold blocked. intros Hb Hq. apply eq_None_not_Some. intros Hsome.
  assert (existsb (λ q, bool_decide (is_Some (files !! q))) (PyPath.ancestors p) = true)
    as Htrue; [| congruence].
  apply existsb_exists. exists q. split; [by apply list_elem_of_In |].
  by apply bool_decide_eq_true.
Qed.

(** What [rmtree] leaves of the local files. *)
Lemma lookup_rmtree (d q : Path) (files : gmap Path string) :
  filter (λ kv, ¬ d `prefix_of` kv.1) files !! q
  = if decide (d `prefix_of` q) then None else files !! q.
Proof.
  case_decide as Hpre.
  - apply map_lookup_filter_None. right. intros x _ Hnot. by apply Hnot.
  - destruct (files !! q) as [x|] eqn:Hq.
    + by apply map_lookup_filter_Some.
    + apply map_lookup_filter_None. by left.
Qed.

(** The converse direction: when the environment does not fault and the
    local files allow it, a call returns. *)
Lemma blocked_false_intro (p : Path) (files : gmap Path string) :
  (∀ q, q `prefix_of` p → q ≠ p → files !! q = None) → blocked p files = false.
Proof.
  intros Hfree. unfold blocked. apply not_true_is_false.
  intros (q & Hq & Hfile)%existsb_exists.
  apply list_elem_of_In, elem_of_ancestors in Hq as [Hpre Hne].
  apply bool_decide_eq_true in Hfile as [x Hx]. by rewrite Hfree in Hx.
Qed.

Lemma is_dir_false_intro (p : Path) (files : gmap Path string) :
  (∀ q, p `prefix_of` q → q ≠ p → files !! q = None) → is_dir p files = false.
Proof.
  intros Hfree. unfold is_dir. rewrite bool_decide_eq_true_2; [done |].
  intros q x Hq [Hpre Hne]. by rewrite Hfree in Hq.
Qed.

Lemma is_dir_true_intro (p q : Path) (x : string) (files : gmap Path string) :
  files !! q = Some x → p `prefix_of` q → q ≠ p → is_dir p files = true.
Proof.
  intros Hq Hpre Hne. unfold is_dir. rewrite bool_decide_eq_false_2; [done |].
  intros Hall. by apply (Hall q x Hq).
Qed.

Lemma save_file_run (data : Data) (p : Path) (w : World) :
  fault (CSaveFile data p) w = None →
  blocked p (local w) = false →
  is_dir p (local w) = false →
  save_file data p w
  = (Ok tt, set_local (<[p := dumps data]> (local w)) (log (CSaveFile data p) w)).
Proof.
  intros Hfault Hblocked Hdir.
  unfold save_file, bind, call, write_local, bind, get, modify. rewrite Hfault.
  simpl. by rewrite Hblocked, Hdir.
Qed.

Lemma push_run (bucket blob : string) (p : Path) (content : string) (w : World) :
  fault (CGcsHandlerBlob "push" bucket (PPath p) blob) w = None →
  local w !! p = Some content →
  gcs_handler_blob "push" bucket (PPath p) blob w
  = (Ok tt, set_remote (<[(bucket, blob) := content]> (remote w))
              (log (CGcsHandlerBlob "push" bucket (PPath p) blob) w)).
Proof.
  intros Hfault Hfile. unfold gcs_handler_blob, bind, call, get, modify.
  rewrite Hfault. simpl. by rewrite Hfile.
Qed.

Lemma rmtree_run (d : Path) (w : World) :
  fault (CRmtree d) w = None →
  local w !! d = None →
  is_dir d (local w) = true →
  rmtree d w
  = (Ok tt, set_local (filter (λ kv, ¬ d `prefix_of` kv.1) (local w))
              (log (CRmtree d) w)).
Proof.
  intros Hfault Hfile Hdir. unfold rmtree, bind, call, get, modify.
  rewrite Hfault. simpl. rewrite bool_decide_eq_false_2, Hdir; [done |].
  rewrite Hfile. by intros [? ?].
Qed.

End BoundaryFacts.

(** ** The silver stage *)

Section SilverFacts.
Context `{Records} `{!Utils}.
Import PreprossecingSilverData.

Lemma error_path_ne_valid_path (self : t) : error_path_local self ≠ valid_path_local self.
Proof.
  unfold error_path_local, valid_path_local.
  intros [[_ Hdir]%div_inj _]%div_inj. discriminate.
Qed.

(** All there is to a run that ends without an exception. *)
Lemma silver_run_ok (self : t) (w w' : World) (u : unit) :
  execute self w = (Ok u, w') →
  ∃ valid_items invalid_items,
    let invalid := dumps (InvalidItems invalid_items) in
    let valid := dumps (ValidItems valid_items) in
    read_outcome (local_file_name self) (type_of_schema self) w
      = Ok (valid_items, invalid_items) ∧
    calls w' = calls w ++
      [ CReadFile (local_file_name self) (type_of_schema self);
        CSaveFile (InvalidItems invalid_items) (error_path_local self);
        CSaveFile (ValidItems valid_items) (valid_path_local self);
        CGcsHandlerBlob "push" (bucket_name self)
          (PPath (error_path_local self)) (error_path_gcs self);
        CGcsHandlerBlob "push" (bucket_name self)
          (PPath (valid_path_local self)) (valid_path_gcs self);
        CRmtree (PyPath.parent (error_path_local self));
        CRmtree (PyPath.parent (valid_path_local self)) ] ∧
    remote w' =
      <[(bucket_name self, valid_path_gcs self) := valid]>
        (<[(bucket_name self, error_path_gcs self) := invalid]> (remote w)) ∧
    local w' =
      filter (λ kv, ¬ PyPath.parent (valid_path_local self) `prefix_of` kv.1)
        (filter (λ kv, ¬ PyPath.parent (error_path_local self) `prefix_of` kv.1)
           (<[valid_path_local self := valid]>
              (<[error_path_local self := invalid]> (local w)))) ∧
    blocked (error_path_local self) (local w) = false ∧
    blocked (valid_path_local self)
      (<[error_path_local self := invalid]> (local w)) = false.
Proof.
  unfold execute. intros ([valid_items invalid_items] & w1 & Hread & Hrun)%bind_ok.
  unfold read_file in Hread. injection Hread as Hout <-.
  apply bind_ok in Hrun as (? & w2 & Hsave1 & Hrun).
  apply save_file_ok in Hsave1 as (_ & Hblocked1 & ->).
  apply bind_ok in Hrun as (? & w3 & Hsave2 & Hrun).
  apply save_file_ok in Hsave2 as (_ & Hblocked2 & ->).
  apply bind_ok in Hrun as (? & w4 & Hpush1 & Hrun).
  apply push_ok in Hpush1 as (_ & c1 & Hc1 & ->).
  apply bind_ok in Hrun as (? & w5 & Hpush2 & Hrun).
  apply push_ok in Hpush2 as (_ & c2 & Hc2 & ->).
  apply bind_ok in Hrun as (? & w6 & Hrm1 & Hrm2).
  apply rmtree_ok in Hrm1 as (_ & _ & ->).
  apply rmtree_ok in Hrm2 as (_ & _ & ->).
  simpl in *.
  rewrite lookup_insert_ne, lookup_insert_eq in Hc1
    by (intros Heq; by apply (error_path_ne_valid_path self)).
  rewrite lookup_insert_eq in Hc2.
  injection Hc1 as <-. injection Hc2 as <-.
  exists valid_items, invalid_items. simpl.
  split_and!; try done.
  by rewrite <- !app_assoc.
Qed.

(** The input file of the stage lies in neither output directory, unless
    it is no file at all. *)
Lemma silver_input_kept (self : t) (files : gmap Path string) (s1 s2 : string) :
  blocked (error_path_local self) files = false →
  blocked (valid_path_local self) (<[error_path_local self := s1]> files) = false →
  filter (λ kv, ¬ PyPath.parent (valid_path_local self) `prefix_of` kv.1)
    (filter (λ kv, ¬ PyPath.parent (error_path_local self) `prefix_of` kv.1)
       (<[valid_path_local self := s2]> (<[error_path_local self := s1]> files)))
    !! local_file_name self
  = files !! local_file_name self.
Proof.
  unfold error_path_local, valid_path_local.
  generalize (local_file_name self) as p. intros p Hb1 Hb2.
  pose proof (nephew_ne p "error" (PyPath.stem p +:+ "_error.json")) as He.
  pose proof (nephew_ne p "valid" (PyPath.stem p +:+ "_valid.json")) as Hv.
  pose proof (under_sibling p) as Hlen.
  rewrite !lookup_rmtree, !parent_div.
  case_decide as Hpv.
  - apply Hlen in Hpv. symmetry.
    pose proof (blocked_false _ p _ Hb2) as Hnone.
    rewrite lookup_insert_ne in Hnone by done.
    apply Hnone. rewrite Hpv at 1. apply dir_in_ancestors.
  - case_decide as Hpe.
    + apply Hlen in Hpe. symmetry.
      apply (blocked_false _ p _ Hb1). rewrite Hpe at 1. apply dir_in_ancestors.
    + by rewrite !lookup_insert_ne.
Qed.

(** X11. A silver run does end without an exception when the read
    succeeds, the environment does not fault, and no local file lies at,
    above or below the two files it writes. *)
Lemma silver_run_succeeds (self : t) (w : World) (valid_items : list Item)
    (invalid_items : list RawItem) :
  (∀ c w0, fault c w0 = None) →
  read_outcome (local_file_name self) (type_of_schema self) w
    = Ok (valid_items, invalid_items) →
  (∀ q, is_Some (local w !! q) →
        ¬ q `prefix_of` error_path_local self ∧ ¬ error_path_local self `prefix_of` q ∧
        ¬ q `prefix_of` valid_path_local self ∧ ¬ valid_path_local self `prefix_of` q) →
  ∃ w', execute self w = (Ok tt, w').
Proof.
  intros Hfault Hread Hfree.
  pose proof (error_path_ne_valid_path self) as Hne.
  assert (∀ q, q `prefix_of` error_path_local self ∨
               error_path_local self `prefix_of` q ∨
               q `prefix_of` valid_path_local self ∨
               valid_path_local self `prefix_of` q → local w !! q = None) as Hnone.
  { intros q Hq. apply eq_None_not_Some. intros Hsome.
    destruct (Hfree q Hsome) as (? & ? & ? & ?). tauto. }
  assert (¬ error_path_local self `prefix_of` valid_path_local self) as Hev
    by (by apply cousin_not_above).
  assert (¬ valid_path_local self `prefix_of` error_path_local self) as Hve
    by (by apply cousin_not_above).
  unfold execute, bind at 1, read_file. rewrite Hread.
  unfold bind at 1. rewrite save_file_run; [| done | |]; simpl.
  2: { apply blocked_false_intro. auto. }
  2: { apply is_dir_false_intro. auto. }
  unfold bind at 1. rewrite save_file_run; [| done | |]; simpl.
  2: { apply blocked_false_intro. intros q Hq ?.
       rewrite lookup_insert_ne; [auto | by intros <-]. }
  2: { apply is_dir_false_intro. intros q Hq ?.
       rewrite lookup_insert_ne; [auto | by intros <-]. }
  unfold bind at 1.
  erewrite push_run; [| done | simpl; by rewrite lookup_insert_ne, lookup_insert_eq].
  unfold bind at 1.
  erewrite push_run; [| done | simpl; by rewrite lookup_insert_eq].
  unfold bind at 1. rewrite rmtree_run; [| done | |]; simpl.
  2: { rewrite !lookup_insert_ne.
       - apply Hnone. left. unfold error_path_local. rewrite parent_div.
         apply prefix_of_div_self.
       - unfold error_path_local. rewrite parent_div. apply div_ne_self.
       - intros Heq. apply Hve. rewrite Heq. unfold error_path_local.
         rewrite parent_div. apply prefix_of_div_self. }
  2: { apply (is_dir_true_intro _ (error_path_local self)
                (dumps (InvalidItems invalid_items))).
       - by rewrite lookup_insert_ne, lookup_insert_eq.
       - unfold error_path_local. rewrite parent_div. apply prefix_of_div_self.
       - unfold error_path_local. rewrite parent_div. apply div_ne_self. }
  assert (¬ PyPath.parent (error_path_local self) `prefix_of` valid_path_local self)
    as Hdir_ev.
  { unfold error_path_local, valid_path_local. rewrite parent_div.
    by apply sibling_not_above. }
  eexists. apply rmtree_run; [done | |]; simpl.
  - rewrite lookup_rmtree. case_decide; [done |].
    rewrite !lookup_insert_ne.
    + apply Hnone. right. right. left. unfold valid_path_local.
      rewrite parent_div. apply prefix_of_div_self.
    + intros Heq. apply Hev. rewrite Heq. unfold valid_path_local.
      rewrite parent_div. apply prefix_of_div_self.
    + unfold valid_path_local. rewrite parent_div. apply div_ne_self.
  - apply (is_dir_true_intro _ (valid_path_local self)
             (dumps (ValidItems valid_items))).
    + rewrite lookup_rmtree, decide_False by done. by rewrite lookup_insert_eq.
    + unfold valid_path_local. rewrite parent_div. apply prefix_of_div_self.
    + unfold valid_path_local. rewrite parent_div. apply div_ne_self.
Qed.

End SilverFacts.

(** ** The gold stage *)

Section GoldFacts.
Context `{Records} `{!Utils}.
Import PreprossecingGoldData.

Lemma reconcile_drugs_map (drugs pubmed_json pubmed_csv clinical : list Item) :
  reconcile_drugs drugs pubmed_json pubmed_csv clinical
  = map (λ drug, reconciliation_data drug (pubmed_json ++ pubmed_csv) clinical) drugs.
Proof. unfold reconcile_drugs. by rewrite Parallel_delayed. Qed.

(** The four reads are made in turn, each at the world left by the one
    before, and change nothing but the log. *)
Lemma read_sources_ok (self : t) (w w1 : World)
    (drug pubmed_json pubmed_csv clinical_trials : list Item * list RawItem) :
  read_sources self w = (Ok (drug, pubmed_json, pubmed_csv, clinical_trials), w1) →
  let c1 := CReadFile (path_elements_drug self)
              (PyPath.stem (path_elements_drug self)) in
  let c2 := CReadFile (path_elements_pubmed_json self)
              (PyPath.stem (path_elements_pubmed_json self)) in
  let c3 := CReadFile (path_elements_pubmed_csv self)
              (PyPath.stem (path_elements_pubmed_csv self)) in
  let c4 := CReadFile (path_elements_clinical_trials self)
              (PyPath.stem (path_elements_clinical_trials self)) in
  read_outcome (path_elements_drug self)
    (PyPath.stem (path_elements_drug self)) w = Ok drug ∧
  read_outcome (path_elements_pubmed_json self)
    (PyPath.stem (path_elements_pubmed_json self)) (log c1 w) = Ok pubmed_json ∧
  read_outcome (path_elements_pubmed_csv self)
    (PyPath.stem (path_elements_pubmed_csv self)) (log c2 (log c1 w))
    = Ok pubmed_csv ∧
  read_outcome (path_elements_clinical_trials self)
    (PyPath.stem (path_elements_clinical_trials self)) (log c3 (log c2 (log c1 w)))
    = Ok clinical_trials ∧
  local w1 = local w ∧ remote w1 = remote w ∧
  calls w1 = calls w ++ [c1; c2; c3; c4].
Proof.
  unfold read_sources, read_file.
  intros (r1 & ? & [= Hr1 <-] & (r2 & ? & [= Hr2 <-] & (r3 & ? & [= Hr3 <-] &
          (r4 & ? & [= Hr4 <-] & [= -> -> -> -> <-])%bind_ok)%bind_ok)%bind_ok)%bind_ok.
  cbv zeta. split_and!; try done. simpl. by rewrite <- !app_assoc.
Qed.

(** All there is to a run that ends without an exception. *)
Lemma gold_run_ok (module_file : Path) (self : t) (w w' : World) (u : unit) :
  execute module_file self w = (Ok u, w') →
  ∃ drug pubmed_json pubmed_csv clinical_trials w1,
    let drugs_reconciliated :=
      reconcile_drugs drug.1 pubmed_json.1 pubmed_csv.1 clinical_trials.1 in
    let path := reconciliated_data_path module_file in
    read_sources self w = (Ok (drug, pubmed_json, pubmed_csv, clinical_trials), w1) ∧
    calls w' = calls w1 ++
      [ CSaveFile (ReconciledItems drugs_reconciliated) path;
        CGcsHandlerBlob "push" (bucket_name self) (PPath path) (PyPath.name path);
        CRmtree (PyPath.parent path) ] ∧
    remote w' =
      <[(bucket_name self, PyPath.name path) :=
          dumps (ReconciledItems drugs_reconciliated)]> (remote w) ∧
    local w' =
      filter (λ kv, ¬ PyPath.parent path `prefix_of` kv.1)
        (<[path := dumps (ReconciledItems drugs_reconciliated)]> (local w)).
Proof.
  unfold execute.
  intros ([d d'] & w1 & Hr1 & ([pj pj'] & w2 & Hr2 & ([pc pc'] & w3 & Hr3 &
          ([ct ct'] & w4 & Hr4 & Hrun)%bind_ok)%bind_ok)%bind_ok)%bind_ok.
  exists (d, d'), (pj, pj'), (pc, pc'), (ct, ct'), w4.
  assert (read_sources self w = (Ok (d, d', (pj, pj'), (pc, pc'), (ct, ct')), w4))
    as Hreads.
  { unfold read_sources, bind. by rewrite Hr1, Hr2, Hr3, Hr4. }
  pose proof (read_sources_ok _ _ _ _ _ _ _ Hreads) as (_ & _ & _ & _ & Hl & Hr & _).
  apply bind_ok in Hrun as (? & w5 & Hsave & Hrun).
  apply save_file_ok in Hsave as (_ & _ & ->).
  apply bind_ok in Hrun as (? & w6 & Hpush & Hrm).
  apply push_ok in Hpush as (_ & content & Hcontent & ->).
  apply rmtree_ok in Hrm as (_ & _ & ->).
  simpl in *. rewrite lookup_insert_eq in Hcontent. injection Hcontent as <-.
  rewrite Hl, Hr. split_and!; try done. by rewrite <- !app_assoc.
Qed.

Lemma reconciliated_blob_name (module_file : Path) :
  PyPath.name (reconciliated_data_path module_file) = "drug_reconciliated.json".
Proof. unfold reconciliated_data_path. by rewrite name_div. Qed.

Lemma reconciliated_dir (module_file : Path) :
  PyPath.parent (reconciliated_data_path module_file)
  = PyPath.parent module_file // "reconciliated".
Proof. unfold reconciliated_data_path. by rewrite parent_div. Qed.

(** X12. A gold run does end without an exception when the four reads
    succeed, the environment does not fault, and no local file lies at,
    above or below the file it writes. *)
Lemma gold_run_succeeds (module_file : Path) (self : t) (w w1 : World)
    (drug pubmed_json pubmed_csv clinical_trials : list Item * list RawItem) :
  (∀ c w0, fault c w0 = None) →
  read_sources self w = (Ok (drug, pubmed_json, pubmed_csv, clinical_trials), w1) →
  (∀ q, is_Some (local w !! q) →
        ¬ q `prefix_of` reconciliated_data_path module_file ∧
        ¬ reconciliated_data_path module_file `prefix_of` q) →
  ∃ w', execute module_file self w = (Ok tt, w').
Proof.
  intros Hfault Hreads Hfree.
  assert (∀ q, q `prefix_of` reconciliated_data_path module_file ∨
               reconciliated_data_path module_file `prefix_of` q →
               local w !! q = None) as Hnone.
  { intros q Hq. apply eq_None_not_Some. intros Hsome.
    destruct (Hfree q Hsome) as (? & ?). tauto. }
  apply read_sources_ok in Hreads as (Hr1 & Hr2 & Hr3 & Hr4 & _).
  destruct drug as [d ?], pubmed_json as [pj ?], pubmed_csv as [pc ?],
    clinical_trials as [ct ?].
  unfold execute, read_file.
  unfold bind at 1. rewrite Hr1. unfold bind at 1. rewrite Hr2.
  unfold bind at 1. rewrite Hr3. unfold bind at 1. rewrite Hr4.
  unfold bind at 1. rewrite save_file_run; [| done | |]; simpl.
  2: { apply blocked_false_intro. auto. }
  2: { apply is_dir_false_intro. auto. }
  unfold bind at 1.
  erewrite push_run; [| done | simpl; by rewrite lookup_insert_eq].
  eexists. apply rmtree_run; [done | |]; simpl.
  - rewrite lookup_insert_ne.
    + apply Hnone. left. unfold reconciliated_data_path. rewrite parent_div.
      apply prefix_of_div_self.
    + unfold reconciliated_data_path. rewrite parent_div. apply div_ne_self.
  - apply (is_dir_true_intro _ (reconciliated_data_path module_file)
             (dumps (ReconciledItems (reconcile_drugs d pj pc ct)))).
    + by rewrite lookup_insert_eq.
    + unfold reconciliated_data_path. rewrite parent_div. apply prefix_of_div_self.
    + unfold reconciliated_data_path. rewrite parent_div. apply div_ne_self.
Qed.

End GoldFacts.

(** The bronze operator on the small run: the raw file is pushed as it is,
    under [<stem>/<name>]. *)
Example bronze_pushes_raw_file :
  remote (@PreprossecingBronzeData.execute Demo.records Demo.utils
            (DagServier.bronze_operator (DagServier.path_drugs Demo.root))
            Demo.world).2
    !! ("servier-bronze", "drugs/drugs.csv") = Some "rows".
Proof. vm_compute. reflexivity. Qed.

Section SilverClaims.
Context `{Records} `{!Utils}.
Import PreprossecingSilverData.

(** C6. A silver run that ends without an exception has read the source
    file, saved the invalid partition as [<stem>_error.json] in the [error]
    directory beside it and the valid partition as [<stem>_valid.json] in
    the [valid] directory, and pushed each to the bucket of the operator
    under [<prefix_gcs_file_name>/<local file name>], the invalid one
    first; the two blobs hold the two partitions. *)
Theorem silver_persists_both_partitions (self : t) (w w' : World) :
  execute self w = (Ok tt, w') →
  let source := local_file_name self in
  let error_file := PyPath.stem source +:+ "_error.json" in
  let valid_file := PyPath.stem source +:+ "_valid.json" in
  let error_path := PyPath.parent source // "error" // error_file in
  let valid_path := PyPath.parent source // "valid" // valid_file in
  let error_blob := prefix_gcs_file_name self +:+ "/" +:+ error_file in
  let valid_blob := prefix_gcs_file_name self +:+ "/" +:+ valid_file in
  ∃ valid_items invalid_items,
    read_outcome source (type_of_schema self) w = Ok (valid_items, invalid_items) ∧
    calls w' = calls w ++
      [ CReadFile source (type_of_schema self);
        CSaveFile (InvalidItems invalid_items) error_path;
        CSaveFile (ValidItems valid_items) valid_path;
        CGcsHandlerBlob "push" (bucket_name self) (PPath error_path) error_blob;
        CGcsHandlerBlob "push" (bucket_name self) (PPath valid_path) valid_blob;
        CRmtree (PyPath.parent source // "error");
        CRmtree (PyPath.parent source // "valid") ] ∧
    remote w' =
      <[(bucket_name self, valid_blob) := dumps (ValidItems valid_items)]>
        (<[(bucket_name self, error_blob) := dumps (InvalidItems invalid_items)]>
           (remote w)).
Proof.
  intros Hrun. cbv zeta.
  apply silver_run_ok in Hrun
    as (valid_items & invalid_items & Hread & Hcalls & Hremote & _).
  exists valid_items, invalid_items.
  unfold error_path_gcs, valid_path_gcs, error_path_local, valid_path_local in *.
  rewrite !name_div, !parent_div in *. done.
Qed.

(** C7. When the read of the source file raises, the silver run raises
    the same fault and has made no other call: no file is saved, nothing
    is pushed, and the local files and the bucket are as before. *)
Theorem silver_read_fault_aborts (self : t) (w : World) (e : Fault) :
  read_outcome (local_file_name self) (type_of_schema self) w = Raise e →
  ∃ w', execute self w = (Raise e, w') ∧
        local w' = local w ∧
        remote w' = remote w ∧
        calls w' = calls w ++ [CReadFile (local_file_name self) (type_of_schema self)].
Proof.
  intros Hread.
  exists (log (CReadFile (local_file_name self) (type_of_schema self)) w).
  split; [| done].
  unfold execute. apply bind_raise. unfold read_file. by rewrite Hread.
Qed.

End SilverClaims.

Section GoldClaims.
Context `{Records} `{!Utils}.
Import PreprossecingGoldData.

(** C2. In a gold run that ends without an exception the sequence saved
    and pushed has the length of the valid drug sequence, and its element
    at each index is the reconciliation of the drug at that index. *)
Theorem gold_preserves_drug_order (module_file : Path) (self : t) (w w' : World) :
  execute module_file self w = (Ok tt, w') →
  ∃ drug pubmed_json pubmed_csv clinical_trials w1 drugs_reconciliated,
    read_sources self w = (Ok (drug, pubmed_json, pubmed_csv, clinical_trials), w1) ∧
    calls w' = calls w1 ++
      [ CSaveFile (ReconciledItems drugs_reconciliated)
          (reconciliated_data_path module_file);
        CGcsHandlerBlob "push" (bucket_name self)
          (PPath (reconciliated_data_path module_file)) "drug_reconciliated.json";
        CRmtree (PyPath.parent module_file // "reconciliated") ] ∧
    length drugs_reconciliated = length drug.1 ∧
    ∀ i, drugs_reconciliated !! i
         = (λ d, reconciliation_data d (pubmed_json.1 ++ pubmed_csv.1)
                   clinical_trials.1) <$> drug.1 !! i.
Proof.
  intros (drug & pubmed_json & pubmed_csv & clinical_trials & w1 & Hreads & Hcalls & _)
    %gold_run_ok.
  rewrite reconciliated_blob_name, reconciliated_dir in Hcalls.
  eexists drug, pubmed_json, pubmed_csv, clinical_trials, w1, _.
  split_and!; [done | exact Hcalls | |].
  - by rewrite reconcile_drugs_map, length_map.
  - intros i. by rewrite reconcile_drugs_map, list_lookup_fmap.
Qed.

(** C3. The PubMed input of every per-drug call is the valid PubMed-JSON
    records followed by the valid PubMed-CSV records: its length is the sum
    of the two lengths, and a record valid in both origins is in it twice. *)
Theorem gold_pubmed_input_is_concatenation (module_file : Path) (self : t)
    (w w' : World) :
  execute module_file self w = (Ok tt, w') →
  ∃ drug pubmed_json pubmed_csv clinical_trials w1 drugs_reconciliated pubmed_valid,
    read_sources self w = (Ok (drug, pubmed_json, pubmed_csv, clinical_trials), w1) ∧
    remote w' !! (bucket_name self, "drug_reconciliated.json")
      = Some (dumps (ReconciledItems drugs_reconciliated)) ∧
    (∀ i d, drug.1 !! i = Some d →
       drugs_reconciliated !! i
       = Some (reconciliation_data d pubmed_valid clinical_trials.1)) ∧
    pubmed_valid = pubmed_json.1 ++ pubmed_csv.1 ∧
    length pubmed_valid = length pubmed_json.1 + length pubmed_csv.1 ∧
    ∀ mention, mention ∈ pubmed_json.1 → mention ∈ pubmed_csv.1 →
      ∃ i j, i < j ∧ pubmed_valid !! i = Some mention ∧
             pubmed_valid !! j = Some mention.
Proof.
  intros (drug & pubmed_json & pubmed_csv & clinical_trials & w1 & Hreads & _ & Hremote & _)
    %gold_run_ok.
  rewrite reconciliated_blob_name in Hremote.
  eexists drug, pubmed_json, pubmed_csv, clinical_trials, w1, _, _.
  split_and!; [done | by rewrite Hremote, lookup_insert_eq | | done | apply length_app |].
  { intros i d Hd. by rewrite reconcile_drugs_map, list_lookup_fmap, Hd. }
  intros mention [i Hi]%list_elem_of_lookup [j Hj]%list_elem_of_lookup.
  exists i, (length pubmed_json.1 + j). split_and!.
  - apply lookup_lt_Some in Hi. lia.
  - by apply lookup_app_l_Some.
  - by rewrite lookup_app_r, Nat.add_comm, Nat.add_sub by lia.
Qed.

(** C4. The gold stage computes its result with a pool of one job over the
    tasks made of one per-drug function, the reconciliation closed over the
    PubMed and clinical-trials sequences, and the valid drugs: the sequence
    that a run without exception saves and pushes is the output of that
    pool, and it is the map of that function over the drugs. *)
Theorem gold_reconciles_with_one_job (module_file : Path) (self : t) (w w' : World) :
  execute module_file self w = (Ok tt, w') →
  ∃ drug pubmed_json pubmed_csv clinical_trials w1 drugs_reconciliated
    partial_function_mapping_drug,
    read_sources self w = (Ok (drug, pubmed_json, pubmed_csv, clinical_trials), w1) ∧
    calls w' = calls w1 ++
      [ CSaveFile (ReconciledItems drugs_reconciliated)
          (reconciliated_data_path module_file);
        CGcsHandlerBlob "push" (bucket_name self)
          (PPath (reconciliated_data_path module_file)) "drug_reconciliated.json";
        CRmtree (PyPath.parent module_file // "reconciliated") ] ∧
    remote w' !! (bucket_name self, "drug_reconciliated.json")
      = Some (dumps (ReconciledItems drugs_reconciliated)) ∧
    partial_function_mapping_drug
      = partial reconciliation_data (pubmed_json.1 ++ pubmed_csv.1) clinical_trials.1 ∧
    drugs_reconciliated
      = Parallel 1 (map (λ d, delayed partial_function_mapping_drug d) drug.1) ∧
    drugs_reconciliated = map partial_function_mapping_drug drug.1.
Proof.
  intros (drug & pubmed_json & pubmed_csv & clinical_trials & w1 & Hreads & Hcalls
          & Hremote & _)%gold_run_ok.
  rewrite reconciliated_blob_name, reconciliated_dir in Hcalls.
  rewrite reconciliated_blob_name in Hremote.
  eexists drug, pubmed_json, pubmed_csv, clinical_trials, w1, _, _.
  split_and!; [done | exact Hcalls | by rewrite Hremote, lookup_insert_eq | done
              | done |].
  unfold reconcile_drugs. apply Parallel_delayed.
Qed.

End GoldClaims.

Section ReconciliationClaim.
Import Reconciliation.

(** C1. The match law on the gold stage itself, with the engine as its
    per-drug function and whatever [str.lower], reader, serialiser and
    faults: in a run without exception, for every valid drug record [D]
    with a name, at any index of the drug sequence, the saved sequence
    holds at that index the result for [D], and for every mention [M] of
    the PubMed input (JSON then CSV) or of the clinical-trials input that
    result includes the entry of [M] if and only if the lowered name of
    [D] occurs as a substring of the lowered title of [M]. *)
Theorem reconcile_match_substring_law (lower : string → string)
    (read_outcome : Path → string → @World records → Exc (list Entity * list string))
    (dumps : @Data records → string)
    (fault : @Call records → @World records → option Fault)
    (module_file : Path) (self : PreprossecingGoldData.t) (w w' : @World records) :
  @PreprossecingGoldData.execute records (utils lower read_outcome dumps fault)
    module_file self w = (Ok tt, w') →
  ∃ (drug pubmed_json pubmed_csv clinical_trials : list Entity * list string)
    (w1 : @World records) (drugs_reconciliated : list ReconciliationResult),
    @PreprossecingGoldData.read_sources records (utils lower read_outcome dumps fault)
      self w = (Ok (drug, pubmed_json, pubmed_csv, clinical_trials), w1) ∧
    calls w' = calls w1 ++
      [ CSaveFile (@ReconciledItems records drugs_reconciliated)
          (PreprossecingGoldData.reconciliated_data_path module_file);
        CGcsHandlerBlob "push" (PreprossecingGoldData.bucket_name self)
          (PPath (PreprossecingGoldData.reconciliated_data_path module_file))
          "drug_reconciliated.json";
        CRmtree (PyPath.parent module_file // "reconciliated") ] ∧
    ∀ (i : nat) (D : Drug),
      drug.1 !! i = Some (EDrug D) →
      name D ≠ "" →
      ∃ r : ReconciliationResult,
        drugs_reconciliated !! i = Some r ∧
        Reconciliation.drug r = D ∧
        ∀ mention : Mention,
          (EMention mention ∈ pubmed_json.1 ++ pubmed_csv.1 →
             provenance Reconciliation.pubmed mention ∈ mentions r ↔
             PyStr.occurs_in (lower (name D)) (lower (title mention))) ∧
          (EMention mention ∈ clinical_trials.1 →
             provenance Reconciliation.clinical_trials mention ∈ mentions r ↔
             PyStr.occurs_in (lower (name D)) (lower (title mention))).
Proof.
  intros Hrun.
  apply (@gold_run_ok records (utils lower read_outcome dumps fault)) in Hrun
    as (drug & pubmed_json & pubmed_csv & clinical_trials & w1 & Hreads & Hcalls & _).
  rewrite reconciliated_blob_name, reconciliated_dir in Hcalls.
  eexists drug, pubmed_json, pubmed_csv, clinical_trials, w1, _.
  split; [exact Hreads |]. split; [exact Hcalls |].
  intros i D Hi Hname.
  exists (reconcile lower D (as_mentions (pubmed_json.1 ++ pubmed_csv.1))
            (as_mentions clinical_trials.1)).
  split.
  { rewrite reconcile_drugs_map. apply list_lookup_fmap_Some.
    exists (EDrug D). split; [reflexivity | exact Hi]. }
  split; [reflexivity |].
  intros mention.
  destruct (reconcile_mentions_law lower D
              (as_mentions (pubmed_json.1 ++ pubmed_csv.1))
              (as_mentions clinical_trials.1) mention Hname) as [Hp Hc].
  split; intros Hmention; [apply Hp | apply Hc]; by apply elem_of_as_mentions.
Qed.

End ReconciliationClaim.

Section GoldReaders.
Context `{Records}.
Import PreprossecingGoldData.

(** A read followed by code that looks at the valid partition only does
    the same under two readers that agree on the valid partition. *)
Lemma bind_read_valid_part {B} (U1 U2 : Utils) (file_path : Path)
    (type_of_schema : string) (k1 k2 : list Item * list RawItem → M World B)
    (w : World) :
  valid_part (@read_outcome _ U1 file_path type_of_schema w)
    = valid_part (@read_outcome _ U2 file_path type_of_schema w) →
  (∀ valid_items invalid1 invalid2 w1,
     k1 (valid_items, invalid1) w1 = k2 (valid_items, invalid2) w1) →
  bind (@read_file _ U1 file_path type_of_schema) k1 w
  = bind (@read_file _ U2 file_path type_of_schema) k2 w.
Proof.
  intros Hvalid Hk. unfold bind, read_file.
  destruct (@read_outcome _ U1 file_path type_of_schema w) as [[v1 i1]|e1],
    (@read_outcome _ U2 file_path type_of_schema w) as [[v2 i2]|e2];
    simpl in Hvalid; try discriminate.
  - injection Hvalid as ->. apply Hk.
  - by injection Hvalid as ->.
Qed.

(** C5. The gold stage uses the valid partition of each of its four reads
    and nothing of the invalid one: with any other reader that returns the
    same valid partitions (and raises the same faults), whatever it returns
    as invalid, the run has the same outcome and leaves the same world. *)
Theorem gold_discards_invalid_partitions (U : Utils)
    (other : Path → string → World → Exc (list Item * list RawItem))
    (module_file : Path) (self : t) (w : World) :
  (∀ file_path type_of_schema w0,
     valid_part (other file_path type_of_schema w0)
     = valid_part (@read_outcome _ U file_path type_of_schema w0)) →
  @execute _ (with_read_outcome U other) module_file self w
  = @execute _ U module_file self w.
Proof.
  intros Hvalid. unfold execute.
  apply bind_read_valid_part; [apply Hvalid |]. intros drugs ? ? w1.
  apply bind_read_valid_part; [apply Hvalid |]. intros pubmed_json ? ? w2.
  apply bind_read_valid_part; [apply Hvalid |]. intros pubmed_csv ? ? w3.
  apply bind_read_valid_part; [apply Hvalid |]. intros clinical_trials ? ? w4.
  reflexivity.
Qed.

End GoldReaders.

Section CleanUp.
Context `{Records} `{!Utils}.

(** C10, as amended. After a silver run without an exception nothing is
    left of the [error] and [valid] directories beside the source file,
    every other local file is as before, and so is the source file; after
    a gold run without an exception nothing is left of the [reconciliated]
    directory beside the operators' module, every other local file is as
    before, among them each of the four input files that does not lie in
    that directory, and the bucket of the operator has gained the result
    under the blob name [drug_reconciliated.json], whatever the operator
    was given.  The operator is a value that [execute] reads and cannot
    change. *)
Theorem stages_remove_their_directories :
  (∀ (self : PreprossecingSilverData.t) (w w' : World),
     PreprossecingSilverData.execute self w = (Ok tt, w') →
     let source := PreprossecingSilverData.local_file_name self in
     let error_dir := PyPath.parent source // "error" in
     let valid_dir := PyPath.parent source // "valid" in
     (∀ q, error_dir `prefix_of` q ∨ valid_dir `prefix_of` q → local w' !! q = None) ∧
     (∀ q, ¬ error_dir `prefix_of` q → ¬ valid_dir `prefix_of` q →
           local w' !! q = local w !! q) ∧
     local w' !! source = local w !! source) ∧
  (∀ (module_file : Path) (self : PreprossecingGoldData.t) (w w' : World),
     PreprossecingGoldData.execute module_file self w = (Ok tt, w') →
     let dir := PyPath.parent module_file // "reconciliated" in
     (∀ q, dir `prefix_of` q → local w' !! q = None) ∧
     (∀ q, ¬ dir `prefix_of` q → local w' !! q = local w !! q) ∧
     (∀ input,
        input ∈ [ PreprossecingGoldData.path_elements_drug self;
                  PreprossecingGoldData.path_elements_pubmed_json self;
                  PreprossecingGoldData.path_elements_pubmed_csv self;
                  PreprossecingGoldData.path_elements_clinical_trials self ] →
        (¬ dir `prefix_of` input → local w' !! input = local w !! input) ∧
        (dir `prefix_of` input → local w' !! input = None)) ∧
     ∃ drugs_reconciliated,
       In (CSaveFile (ReconciledItems drugs_reconciliated)
             (dir // "drug_reconciliated.json")) (calls w') ∧
       remote w' =
         <[(PreprossecingGoldData.bucket_name self, "drug_reconciliated.json") :=
             dumps (ReconciledItems drugs_reconciliated)]> (remote w)).
Proof.
  split.
  - intros self w w' Hrun. cbv zeta.
    apply silver_run_ok in Hrun as (vs & ivs & _ & _ & _ & Hlocal & Hb1 & Hb2).
    split_and!.
    + intros q Hq. rewrite Hlocal, !lookup_rmtree.
      unfold PreprossecingSilverData.error_path_local,
        PreprossecingSilverData.valid_path_local. rewrite !parent_div.
      repeat case_decide; try done. by destruct Hq.
    + intros q Hqe Hqv. rewrite Hlocal, !lookup_rmtree.
      unfold PreprossecingSilverData.error_path_local,
        PreprossecingSilverData.valid_path_local. rewrite !parent_div.
      rewrite !decide_False by done.
      rewrite !lookup_insert_ne; [done | |].
      * intros <-. apply Hqe. eexists. reflexivity.
      * intros <-. apply Hqv. eexists. reflexivity.
    + rewrite Hlocal. by apply silver_input_kept.
  - intros module_file self w w' Hrun. cbv zeta.
    apply gold_run_ok in Hrun
      as (drug & pubmed_json & pubmed_csv & clinical_trials & w1 & _ & Hcalls
          & Hremote & Hlocal).
    rewrite reconciliated_dir in Hlocal, Hcalls.
    rewrite reconciliated_blob_name in Hremote.
    assert (∀ q, PyPath.parent module_file // "reconciliated" `prefix_of` q →
                 local w' !! q = None) as Hgone.
    { intros q Hq. rewrite Hlocal, lookup_rmtree. by rewrite decide_True. }
    assert (∀ q, ¬ PyPath.parent module_file // "reconciliated" `prefix_of` q →
                 local w' !! q = local w !! q) as Hkept.
    { intros q Hq. rewrite Hlocal, lookup_rmtree. rewrite decide_False by done.
      rewrite lookup_insert_ne; [done |].
      intros <-. apply Hq. unfold PreprossecingGoldData.reconciliated_data_path.
      eexists. reflexivity. }
    split_and!; [exact Hgone | exact Hkept | |].
    + intros input _. split; [apply Hkept | apply Hgone].
    + eexists. split; [| exact Hremote].
      rewrite Hcalls. apply in_or_app. right. left. reflexivity.
Qed.

End CleanUp.

(** ** The workflow graph *)

Section DagFacts.
Import Airflow DagServier.

Lemma loop_task_ids_cons (p : Path) (order : list Path) :
  loop_task_ids (p :: order)
  = bronze_task_id p :: silver_task_id p :: loop_task_ids order.
Proof. reflexivity. Qed.

Lemma add_task_ok (task_id : string) (op : Operator) (d : DAG) :
  tasks d !! task_id = None →
  add_task task_id op d
  = (Ok task_id, {| tasks := <[task_id := op]> (tasks d); edges := edges d |}).
Proof. unfold add_task, bind, get. simpl. by intros ->. Qed.

Lemma wire_ok (s e g : string) (p : Path) (d : DAG) :
  tasks d !! bronze_task_id p = None →
  tasks d !! silver_task_id p = None →
  bronze_task_id p ≠ silver_task_id p →
  wire s e g p d = (Ok tt, wired s e g d p).
Proof.
  intros Hb Hs Hne. unfold wire.
  unfold bind at 1. rewrite (add_task_ok _ _ _ Hb).
  unfold bind at 1. rewrite add_task_ok by (simpl; by rewrite lookup_insert_ne).
  reflexivity.
Qed.

Lemma for_each_wire_ok (s e g : string) (order : list Path) (d : DAG) :
  NoDup (loop_task_ids order) →
  (∀ task_id, task_id ∈ loop_task_ids order → tasks d !! task_id = None) →
  for_each (wire s e g) order d = (Ok tt, foldl (wired s e g) d order).
Proof.
  revert d. induction order as [|p order IH]; intros d Hnodup Hfresh; [done |].
  rewrite loop_task_ids_cons in Hnodup, Hfresh.
  apply NoDup_cons in Hnodup as [Hb Hnodup].
  apply NoDup_cons in Hnodup as [Hs Hnodup].
  cbn [for_each foldl]. unfold bind at 1. rewrite wire_ok.
  - apply IH; [done |]. intros task_id Hid. simpl.
    rewrite !lookup_insert_ne.
    + apply Hfresh. by do 2 apply list_elem_of_further.
    + intros <-. apply Hb. by apply list_elem_of_further.
    + by intros <-.
  - apply Hfresh. apply list_elem_of_here.
  - apply Hfresh. apply list_elem_of_further, list_elem_of_here.
  - intros Heq. apply Hb. rewrite Heq. apply list_elem_of_here.
Qed.

(** A task of the final graph was there before the loop or is the
    bronze or the silver task of a path. *)
Lemma tasks_wired_from (s e g : string) (order : list Path) (d : DAG)
    (task_id : string) (op : Operator) :
  tasks (foldl (wired s e g) d order) !! task_id = Some op →
  tasks d !! task_id = Some op ∨
  ∃ p, p ∈ order ∧
    ((task_id = bronze_task_id p ∧ op = BronzeOperator (bronze_operator p)) ∨
     (task_id = silver_task_id p ∧ op = SilverOperator (silver_operator p))).
Proof.
  revert d. induction order as [|p order IH]; intros d; [by left |].
  cbn [foldl]. intros [Hd | (p' & Hp' & Hop)]%IH.
  - simpl in Hd. apply lookup_insert_Some in Hd as [[<- <-] | [_ Hd]].
    { right. exists p. split; [set_solver | by right]. }
    apply lookup_insert_Some in Hd as [[<- <-] | [_ Hd]]; [| by left].
    right. exists p. split; [set_solver | by left].
  - right. exists p'. split; [set_solver | done].
Qed.

Lemma tasks_wired_other (s e g : string) (order : list Path) (d : DAG)
    (task_id : string) :
  task_id ∉ loop_task_ids order →
  tasks (foldl (wired s e g) d order) !! task_id = tasks d !! task_id.
Proof.
  revert d. induction order as [|p order IH]; intros d Hid; [done |].
  rewrite loop_task_ids_cons in Hid.
  apply not_elem_of_cons in Hid as [Hb Hid].
  apply not_elem_of_cons in Hid as [Hs Hid].
  cbn [foldl]. rewrite IH by done. simpl.
  by rewrite !lookup_insert_ne.
Qed.

Lemma tasks_wired_to (s e g : string) (order : list Path) (d : DAG) (p : Path) :
  NoDup (loop_task_ids order) → p ∈ order →
  tasks (foldl (wired s e g) d order) !! bronze_task_id p
    = Some (BronzeOperator (bronze_operator p)) ∧
  tasks (foldl (wired s e g) d order) !! silver_task_id p
    = Some (SilverOperator (silver_operator p)).
Proof.
  revert d. induction order as [|p0 order IH]; intros d Hnodup Hp.
  { by apply elem_of_nil in Hp. }
  rewrite loop_task_ids_cons in Hnodup.
  apply NoDup_cons in Hnodup as [Hb Hnodup].
  apply NoDup_cons in Hnodup as [Hs Hnodup].
  cbn [foldl]. apply elem_of_cons in Hp as [-> | Hp]; [| by apply IH].
  apply not_elem_of_cons in Hb as [Hne Hb].
  rewrite !tasks_wired_other by done. simpl. split.
  - by rewrite lookup_insert_ne, lookup_insert_eq.
  - by rewrite lookup_insert_eq.
Qed.

Lemma edges_wired (s e g : string) (order : list Path) (d : DAG)
    (edge : string * string) :
  edge ∈ edges (foldl (wired s e g) d order) ↔
  edge ∈ edges d ∨
  ∃ p, p ∈ order ∧
    (edge = (s, bronze_task_id p) ∨ edge = (bronze_task_id p, silver_task_id p) ∨
     edge = (silver_task_id p, g) ∨ edge = (g, e)).
Proof.
  revert d. induction order as [|p order IH]; intros d.
  - simpl. split; [by left | intros [? | (p & Hp & _)]; [done | by apply elem_of_nil in Hp]].
  - cbn [foldl]. rewrite IH. simpl. rewrite !elem_of_union, !elem_of_singleton.
    split.
    + intros [[-> | [-> | [-> | [-> | Hd]]]] | (p' & Hp' & Hedge)].
      * right. exists p. split; [set_solver | tauto].
      * right. exists p. split; [set_solver | tauto].
      * right. exists p. split; [set_solver | tauto].
      * right. exists p. split; [set_solver | tauto].
      * by left.
      * right. exists p'. split; [set_solver | done].
    + intros [Hd | (p' & [-> | Hp']%elem_of_cons & Hedge)].
      * left. tauto.
      * left. tauto.
      * right. exists p'. done.
Qed.

(** The names, and so the task ids and the schema kinds, of the four
    source files do not depend on where the repository lies. *)
Lemma loop_task_ids_all (root : Path) :
  loop_task_ids (all_paths_local root)
  = [ "push_raw_data_to_gcs_clinical_trials_csv";
      "push_silver_data_to_gcs_clinical_trials_csv";
      "push_raw_data_to_gcs_drugs_csv"; "push_silver_data_to_gcs_drugs_csv";
      "push_raw_data_to_gcs_pubmed_csv"; "push_silver_data_to_gcs_pubmed_csv";
      "push_raw_data_to_gcs_pubmed_json"; "push_silver_data_to_gcs_pubmed_json" ].
Proof.
  unfold loop_task_ids, all_paths_local, bronze_task_id, silver_task_id,
    path_file_clinical_trials, path_drugs, path_file_pubmed_csv, path_file_pubmed_json.
  simpl. by rewrite !name_div.
Qed.


(** Whatever the order of the loop, the graph is built without a clash of
    task ids, and it is the seeded graph wired for each path. *)
Lemma build_ok (root : Path) (order : list Path) :
  order ≡ₚ all_paths_local root →
  build root order Airflow.empty
  = (Ok tt, foldl (wired "start_point" "end_point" gold_task_id) (seeded root) order)
  ∧ NoDup (loop_task_ids order).
Proof.
  intros Hperm.
  assert (loop_task_ids order ≡ₚ loop_task_ids (all_paths_local root)) as Hids.
  { unfold loop_task_ids. by apply Permutation_flat_map. }
  rewrite loop_task_ids_all in Hids.
  assert (NoDup (loop_task_ids order)) as Hnodup.
  { rewrite Hids. apply (bool_decide_unpack _). vm_compute. exact I. }
  split; [| done].
  unfold build. unfold bind at 1. rewrite add_task_ok by done.
  unfold bind at 1. rewrite add_task_ok by done.
  unfold bind at 1. rewrite add_task_ok by done.
  apply for_each_wire_ok; [done |].
  intros task_id Hid. rewrite Hids in Hid. simpl.
  repeat (apply elem_of_cons in Hid as [-> | Hid]; [done |]).
  by apply elem_of_nil in Hid.
Qed.

Lemma elem_of_upstream (d : DAG) (u t : string) :
  (u, t) ∈ edges d → u ∈ upstream d t.
Proof.
  intros Hedge. unfold upstream. apply elem_of_map. exists (u, t).
  split; [done |]. by apply elem_of_filter.
Qed.

(** In every state of a run, a task that succeeded was started, and the
    tasks upstream of a started task have succeeded. *)
Lemma run_invariant (d : DAG) (r : Run) :
  reachable d r →
  succeeded r ⊆ started r ∧ ∀ t, t ∈ started r → upstream d t ⊆ succeeded r.
Proof.
  unfold reachable. revert r. apply rtc_ind_r.
  - split; [done | intros t Ht; set_solver].
  - intros r r' _ Hstep [IHs IHu].
    destruct Hstep as [r t Htask Hnew Hup | r t Hstarted]; simpl.
    + split; [set_solver |]. intros t' [->%elem_of_singleton | Ht']%elem_of_union;
        [done | by apply IHu].
    + split; [set_solver |]. intros t' Ht'. specialize (IHu t' Ht'). set_solver.
Qed.

Lemma started_after_upstream (d : DAG) (r : Run) (u t : string) :
  reachable d r → (u, t) ∈ edges d → t ∈ started r → u ∈ succeeded r.
Proof.
  intros [_ Hup]%run_invariant Hedge Ht.
  apply (Hup t Ht). by apply elem_of_upstream.
Qed.

End DagFacts.

Section DagClaims.
Import Airflow DagServier.

(** C8. In whatever order the loop visits the four source files, the graph
    is built, and for each file it has a bronze task with the silver task
    of that file downstream of it; the one gold task is downstream of the
    four silver tasks and upstream of the end point.  So in every state of
    a run in which the gold task has been started, the silver task and the
    bronze task of every file have succeeded, and the end point is started
    only after the gold task has succeeded. *)
Theorem reconciliation_after_every_validation (root : Path) (order : list Path) :
  order ≡ₚ all_paths_local root →
  ∃ dag,
    build root order Airflow.empty = (Ok tt, dag) ∧
    (∀ p, p ∈ all_paths_local root →
       tasks dag !! bronze_task_id p = Some (BronzeOperator (bronze_operator p)) ∧
       tasks dag !! silver_task_id p = Some (SilverOperator (silver_operator p)) ∧
       ("start_point", bronze_task_id p) ∈ edges dag ∧
       (bronze_task_id p, silver_task_id p) ∈ edges dag ∧
       (silver_task_id p, gold_task_id) ∈ edges dag) ∧
    tasks dag !! gold_task_id = Some (GoldOperator (gold_operator root)) ∧
    (∀ task_id op, tasks dag !! task_id = Some (GoldOperator op) →
                   task_id = gold_task_id) ∧
    (gold_task_id, "end_point") ∈ edges dag ∧
    ∀ run, reachable dag run →
      (gold_task_id ∈ started run →
         ∀ p, p ∈ all_paths_local root →
           silver_task_id p ∈ succeeded run ∧ bronze_task_id p ∈ succeeded run) ∧
      ("end_point" ∈ started run → gold_task_id ∈ succeeded run).
Proof.
  intros Hperm. destruct (build_ok root order Hperm) as [Hbuild Hnodup].
  eexists. split; [exact Hbuild |].
  set (dag := foldl (wired "start_point" "end_point" gold_task_id) (seeded root) order).
  assert (∀ p, p ∈ all_paths_local root →
            ("start_point", bronze_task_id p) ∈ edges dag ∧
            (bronze_task_id p, silver_task_id p) ∈ edges dag ∧
            (silver_task_id p, gold_task_id) ∈ edges dag ∧
            (gold_task_id, "end_point") ∈ edges dag) as Hedges.
  { intros p Hp. rewrite <- Hperm in Hp.
    split_and!; apply edges_wired; right; exists p; tauto. }
  split_and!.
  - intros p Hp. destruct (Hedges p Hp) as (? & ? & ? & _).
    rewrite <- Hperm in Hp.
    destruct (tasks_wired_to "start_point" "end_point" gold_task_id order
                (seeded root) p Hnodup Hp) as [? ?].
    done.
  - unfold dag. rewrite tasks_wired_other; [done |].
    assert (loop_task_ids order ≡ₚ loop_task_ids (all_paths_local root)) as ->.
    { unfold loop_task_ids. by apply Permutation_flat_map. }
    rewrite loop_task_ids_all. apply (bool_decide_unpack _). vm_compute. exact I.
  - intros task_id op [Hseed | (p & _ & [[_ ?] | [_ ?]])]%tasks_wired_from; [| done..].
    simpl in Hseed.
    apply lookup_insert_Some in Hseed as [[<- _] | [_ Hseed]]; [done |].
    apply lookup_insert_Some in Hseed as [[_ ?] | [_ Hseed]]; [done |].
    apply lookup_insert_Some in Hseed as [[_ ?] | [_ Hseed]]; done.
  - destruct (Hedges (path_drugs root)) as (_ & _ & _ & ?); [| done].
    unfold all_paths_local. apply list_elem_of_further, list_elem_of_here.
  - intros run Hrun. split.
    + intros Hgold p Hp. destruct (Hedges p Hp) as (_ & Hbs & Hsg & _).
      assert (silver_task_id p ∈ succeeded run) as Hsilver
        by (by apply (started_after_upstream dag run _ gold_task_id)).
      split; [done |].
      apply (started_after_upstream dag run _ (silver_task_id p)); [done..|].
      by apply (run_invariant dag run).
    + intros Hend.
      destruct (Hedges (path_drugs root)) as (_ & _ & _ & Hge).
      { unfold all_paths_local. apply list_elem_of_further, list_elem_of_here. }
      by apply (started_after_upstream dag run _ "end_point").
Qed.


End DagClaims.

Lemma silver_persists_both_partitions_witness :
  ∃ w', @PreprossecingSilverData.execute Demo.records Demo.utils Demo.silver_drugs Demo.world = (Ok tt, w') ∧
        remote w' !! ("servier-silver", "drugs/drugs_error.json") = Some "invalid 1" ∧
        remote w' !! ("servier-silver", "drugs/drugs_valid.json") = Some "valid 2".
Proof.
  exists (@PreprossecingSilverData.execute Demo.records Demo.utils Demo.silver_drugs Demo.world).2.
  assert (@PreprossecingSilverData.execute Demo.records Demo.utils Demo.silver_drugs Demo.world
          = (Ok tt, (@PreprossecingSilverData.execute Demo.records Demo.utils Demo.silver_drugs Demo.world).2))
    as Hrun by (vm_compute; reflexivity).
  split; [exact Hrun |].
  destruct (@silver_persists_both_partitions Demo.records Demo.utils _ _ _ Hrun)
    as (valid_items & invalid_items & Hread & _ & Hremote).
  vm_compute in Hread. injection Hread as <- <-.
  rewrite Hremote. split; vm_compute; reflexivity.
Defined.

Lemma silver_read_fault_aborts_witness :
  ∃ w', @PreprossecingSilverData.execute Demo.records Demo.utils Demo.silver_drugs Demo.broken_world
          = (Raise (ValueError "malformed input"), w') ∧
        local w' = local Demo.broken_world ∧
        remote w' = remote Demo.broken_world ∧
        calls w' = calls Demo.broken_world ++
          [CReadFile (DagServier.path_drugs Demo.root) "drugs"].
Proof.
  apply (@silver_read_fault_aborts Demo.records Demo.utils Demo.silver_drugs
           Demo.broken_world (ValueError "malformed input")).
  vm_compute. reflexivity.
Defined.

Lemma gold_preserves_drug_order_witness :
  ∃ w' drugs_reconciliated,
    @PreprossecingGoldData.execute Demo.records Demo.utils Demo.module_file
      Demo.gold Demo.world = (Ok tt, w') ∧
    In (CSaveFile (ReconciledItems drugs_reconciliated)
          (PreprossecingGoldData.reconciliated_data_path Demo.module_file))
       (calls w') ∧
    length drugs_reconciliated = 2.
Proof.
  assert (@PreprossecingGoldData.execute Demo.records Demo.utils Demo.module_file
            Demo.gold Demo.world
          = (Ok tt, (@PreprossecingGoldData.execute Demo.records Demo.utils
                       Demo.module_file Demo.gold Demo.world).2))
    as Hrun by (vm_compute; reflexivity).
  destruct (@gold_preserves_drug_order Demo.records Demo.utils _ _ _ _ Hrun)
    as (drug & pubmed_json & pubmed_csv & clinical_trials & w1 & out & Hreads
        & Hcalls & Hlen & _).
  vm_compute in Hreads. injection Hreads as <- <- <- <- <-.
  eexists _, out. split; [exact Hrun |]. split; [| exact Hlen].
  rewrite Hcalls. apply in_or_app. right. left. reflexivity.
Defined.

Lemma gold_pubmed_input_is_concatenation_witness :
  ∃ w' pubmed_valid,
    @PreprossecingGoldData.execute Demo.records Demo.utils Demo.module_file
      Demo.gold Demo.world = (Ok tt, w') ∧
    length pubmed_valid = 4 ∧
    ∃ i j, i < j ∧ pubmed_valid !! i = Some (Demo.EMention Demo.nejm) ∧
           pubmed_valid !! j = Some (Demo.EMention Demo.nejm).
Proof.
  assert (@PreprossecingGoldData.execute Demo.records Demo.utils Demo.module_file
            Demo.gold Demo.world
          = (Ok tt, (@PreprossecingGoldData.execute Demo.records Demo.utils
                       Demo.module_file Demo.gold Demo.world).2))
    as Hrun by (vm_compute; reflexivity).
  destruct (@gold_pubmed_input_is_concatenation Demo.records Demo.utils _ _ _ _ Hrun)
    as (drug & pubmed_json & pubmed_csv & clinical_trials & w1 & out & pubmed_valid
        & Hreads & _ & _ & _ & Hlen & Htwice).
  vm_compute in Hreads. injection Hreads as <- <- <- <- <-.
  eexists _, pubmed_valid. split; [exact Hrun |]. split; [exact Hlen |].
  apply Htwice; apply list_elem_of_here.
Defined.

Lemma gold_reconciles_with_one_job_witness :
  ∃ (w' : @World Demo.records)
    (drugs_reconciliated : list Reconciliation.ReconciliationResult)
    (f : Demo.Entity → Reconciliation.ReconciliationResult),
    @PreprossecingGoldData.execute Demo.records Demo.utils Demo.module_file
      Demo.gold Demo.world = (Ok tt, w') ∧
    remote w' !! ("servier-gold", "drug_reconciliated.json")
      = Some (Demo.render (@ReconciledItems Demo.records drugs_reconciliated)) ∧
    drugs_reconciliated
      = Parallel 1 (map (λ d, delayed f d)
                      [Demo.EDrug Demo.aspirin; Demo.EDrug Demo.betaline]) ∧
    drugs_reconciliated = map f [Demo.EDrug Demo.aspirin; Demo.EDrug Demo.betaline].
Proof.
  assert (@PreprossecingGoldData.execute Demo.records Demo.utils Demo.module_file
            Demo.gold Demo.world
          = (Ok tt, (@PreprossecingGoldData.execute Demo.records Demo.utils
                       Demo.module_file Demo.gold Demo.world).2))
    as Hrun by (vm_compute; reflexivity).
  destruct (@gold_reconciles_with_one_job Demo.records Demo.utils _ _ _ _ Hrun)
    as (drug & pubmed_json & pubmed_csv & clinical_trials & w1 & out & f
        & Hreads & _ & Hremote & _ & Hpool & Hmap).
  vm_compute in Hreads. injection Hreads as <- <- <- <- <-.
  eexists _, out, f. split; [exact Hrun |].
  split; [exact Hremote |]. split; [exact Hpool | exact Hmap].
Defined.

Lemma gold_discards_invalid_partitions_witness :
  @PreprossecingGoldData.execute Demo.records
    (with_read_outcome Demo.utils Demo.read_without_rejects)
    Demo.module_file Demo.gold Demo.world
  = @PreprossecingGoldData.execute Demo.records Demo.utils
      Demo.module_file Demo.gold Demo.world.
Proof.
  apply (@gold_discards_invalid_partitions Demo.records Demo.utils
           Demo.read_without_rejects Demo.module_file Demo.gold Demo.world).
  intros file_path type_of_schema w0. unfold Demo.read_without_rejects. simpl.
  destruct (Demo.read file_path type_of_schema w0) as [[valid_items invalid_items]|e];
    reflexivity.
Defined.

Lemma stages_remove_their_directories_witness :
  ∃ ws wg,
    @PreprossecingSilverData.execute Demo.records Demo.utils Demo.silver_drugs
      Demo.world = (Ok tt, ws) ∧
    local ws !! DagServier.path_drugs Demo.root
      = local Demo.world !! DagServier.path_drugs Demo.root ∧
    @PreprossecingGoldData.execute Demo.records Demo.utils Demo.module_file
      Demo.gold Demo.world = (Ok tt, wg) ∧
    local wg !! PreprossecingGoldData.reconciliated_data_path Demo.module_file = None ∧
    local wg !! DagServier.path_drugs Demo.root
      = local Demo.world !! DagServier.path_drugs Demo.root.
Proof.
  assert (@PreprossecingSilverData.execute Demo.records Demo.utils Demo.silver_drugs
            Demo.world
          = (Ok tt, (@PreprossecingSilverData.execute Demo.records Demo.utils
                       Demo.silver_drugs Demo.world).2))
    as Hsilver by (vm_compute; reflexivity).
  assert (@PreprossecingGoldData.execute Demo.records Demo.utils Demo.module_file
            Demo.gold Demo.world
          = (Ok tt, (@PreprossecingGoldData.execute Demo.records Demo.utils
                       Demo.module_file Demo.gold Demo.world).2))
    as Hgold by (vm_compute; reflexivity).
  destruct (@stages_remove_their_directories Demo.records Demo.utils)
    as [Hs Hg].
  destruct (Hs _ _ _ Hsilver) as (_ & _ & Hsource).
  destruct (Hg _ _ _ _ Hgold) as (Hgone & _ & Hinputs & _).
  eexists _, _. split; [exact Hsilver |]. split; [exact Hsource |].
  split; [exact Hgold |]. split.
  - apply Hgone. unfold PreprossecingGoldData.reconciliated_data_path.
    apply prefix_of_div_self.
  - destruct (Hinputs (DagServier.path_drugs Demo.root)) as [Hkept _].
    + apply list_elem_of_here.
    + apply Hkept. intros Hpre. apply (bool_decide_pack _) in Hpre.
      vm_compute in Hpre. exact Hpre.
Defined.

(** The frame of C10 as first stated fails: a gold run without exception
    deletes an input file that lies in its [reconciliated] directory. *)
Lemma gold_deletes_input_in_reconciliated :
  ¬ (∀ (R : Records) (U : Utils) (module_file : Path)
       (self : PreprossecingGoldData.t) (w w' : World),
       PreprossecingGoldData.execute module_file self w = (Ok tt, w') →
       local w' !! PreprossecingGoldData.path_elements_drug self
       = local w !! PreprossecingGoldData.path_elements_drug self).
Proof.
  intros Hframe.
  assert (@PreprossecingGoldData.execute Demo.records Demo.utils Demo.module_file
            Demo.misplaced_gold Demo.misplaced_world
          = (Ok tt, (@PreprossecingGoldData.execute Demo.records Demo.utils
                       Demo.module_file Demo.misplaced_gold Demo.misplaced_world).2))
    as Hrun by (vm_compute; reflexivity).
  specialize (Hframe Demo.records Demo.utils _ _ _ _ Hrun).
  vm_compute in Hframe. discriminate Hframe.
Qed.

Lemma reconcile_match_substring_law_witness :
  ∃ (w' : @World Demo.records) (r : Reconciliation.ReconciliationResult),
    @PreprossecingGoldData.execute Demo.records Demo.utils Demo.module_file
      Demo.gold Demo.world = (Ok tt, w') ∧
    Reconciliation.drug r = Demo.aspirin ∧
    (Reconciliation.provenance Reconciliation.pubmed Demo.lancet
       ∈ Reconciliation.mentions r ↔
     PyStr.occurs_in (PyStr.ascii_lower "Aspirin")
       (PyStr.ascii_lower "Use of ASPIRIN in adults")).
Proof.
  assert (@PreprossecingGoldData.execute Demo.records Demo.utils Demo.module_file
            Demo.gold Demo.world
          = (Ok tt, (@PreprossecingGoldData.execute Demo.records Demo.utils
                       Demo.module_file Demo.gold Demo.world).2))
    as Hrun by (vm_compute; reflexivity).
  destruct (reconcile_match_substring_law PyStr.ascii_lower Demo.read Demo.render
              (λ _ _, None) Demo.module_file Demo.gold Demo.world _ Hrun)
    as (drug & pubmed_json & pubmed_csv & clinical_trials & w1 & out & Hreads & _
        & Hlaw).
  vm_compute in Hreads. injection Hreads as <- <- <- <- <-.
  destruct (Hlaw 0 Demo.aspirin) as (r & _ & Hdrug & Hmentions).
  - reflexivity.
  - simpl. discriminate.
  - eexists _, r. split; [exact Hrun |]. split; [exact Hdrug |].
    destruct (Hmentions Demo.lancet) as [Hpubmed _].
    apply Hpubmed. apply list_elem_of_further, list_elem_of_here.
Defined.

Lemma reconciliation_after_every_validation_witness :
  ∃ dag,
    DagServier.build Demo.root (DagServier.all_paths_local Demo.root) Airflow.empty
      = (Ok tt, dag) ∧
    (DagServier.gold_task_id, "end_point") ∈ Airflow.edges dag.
Proof.
  destruct (reconciliation_after_every_validation Demo.root
              (DagServier.all_paths_local Demo.root))
    as (dag & Hbuild & _ & _ & _ & Hend & _).
  - reflexivity.
  - exists dag. split; [exact Hbuild | exact Hend].
Defined.


(** * Further properties of the operators and of the graph *)

(** ** What a run can touch, whatever its outcome *)

Section Confinement.
Context `{Records} `{!Utils}.

Lemma confined_bind {A B} (P : Path → Prop) (Q : string * string → Prop)
    (c : M World A) (k : A → M World B) :
  confined P Q c → (∀ a, confined P Q (k a)) → confined P Q (bind c k).
Proof.
  intros Hc Hk w r w'. unfold bind.
  destruct (c w) as [[a|e] w1] eqn:Hcw.
  - intros Hrun. destruct (Hc _ _ _ Hcw) as [Hl1 Hr1].
    destruct (Hk a _ _ _ Hrun) as [Hl2 Hr2]. split.
    + intros q Hq. by rewrite Hl2, Hl1.
    + intros b Hb. by rewrite Hr2, Hr1.
  - intros [= <- <-]. apply (Hc _ _ _ Hcw).
Qed.

Lemma confined_call (P : Path → Prop) (Q : string * string → Prop) (c : Call) :
  confined P Q (call c).
Proof. intros w r w'. unfold call. destruct (fault c w); by intros [= <- <-]. Qed.

Lemma confined_read_file (P : Path → Prop) (Q : string * string → Prop)
    (file_path : Path) (type_of_schema : string) :
  confined P Q (read_file file_path type_of_schema).
Proof. intros w r w'. unfold read_file. by intros [= <- <-]. Qed.

Lemma confined_write_local (P : Path → Prop) (Q : string * string → Prop)
    (p : Path) (content : string) :
  P p → confined P Q (write_local p content).
Proof.
  intros Hp w r w'. unfold write_local, bind, get, raise, modify.
  destruct (blocked p (local w)); [by intros [= <- <-] |].
  destruct (is_dir p (local w)); intros [= <- <-]; [done |].
  split; [| done]. intros q Hq. simpl. apply lookup_insert_ne. by intros ->.
Qed.

Lemma confined_save_file (P : Path → Prop) (Q : string * string → Prop)
    (data : Data) (p : Path) :
  P p → confined P Q (save_file data p).
Proof.
  intros Hp. unfold save_file. apply confined_bind; [apply confined_call |].
  intros _. by apply confined_write_local.
Qed.

Lemma confined_gcs_handler_blob (P : Path → Prop) (Q : string * string → Prop)
    (type_of_operation bucket_name : string) (local_file_name : PathLike)
    (gcs_file_name : string) :
  (type_of_operation = "pull" → P (fspath local_file_name)) →
  (type_of_operation = "push" → Q (bucket_name, gcs_file_name)) →
  confined P Q
    (gcs_handler_blob type_of_operation bucket_name local_file_name gcs_file_name).
Proof.
  intros Hpull Hpush. unfold gcs_handler_blob.
  apply confined_bind; [apply confined_call |]. intros _ w r w'.
  unfold bind, get, raise, modify.
  destruct (String.eqb_spec type_of_operation "push") as [Hop|_].
  { destruct (local w !! fspath local_file_name); intros [= <- <-]; [| done].
    split; [done |]. intros k Hk. simpl. apply lookup_insert_ne.
    intros <-. by apply Hk, Hpush. }
  destruct (String.eqb_spec type_of_operation "pull") as [Hop|_];
    [| by intros [= <- <-]].
  destruct (remote w !! (bucket_name, gcs_file_name)) as [content|];
    [| by intros [= <- <-]].
  intros Hw.
  by apply (confined_write_local P Q (fspath local_file_name) content (Hpull Hop) w r w').
Qed.

Lemma confined_rmtree (P : Path → Prop) (Q : string * string → Prop) (d : Path) :
  (∀ q, d `prefix_of` q → P q) → confined P Q (rmtree d).
Proof.
  intros Hd. unfold rmtree. apply confined_bind; [apply confined_call |].
  intros _ w r w'. unfold bind, get, raise, modify.
  case_bool_decide; [by intros [= <- <-] |].
  destruct (is_dir d (local w)); intros [= <- <-]; [| done].
  split; [| done]. intros q Hq. simpl. rewrite lookup_rmtree.
  rewrite decide_False; [done |]. intros Hpre. by apply Hq, Hd.
Qed.

(** X1. Whatever its outcome, a silver run leaves every local file outside
    the [error] and [valid] directories beside its source file as it was,
    and every blob other than the two it pushes, in its own bucket, as it
    was. *)
Theorem silver_touches_only_its_outputs (self : PreprossecingSilverData.t)
    (w w' : World) (r : Exc unit) :
  PreprossecingSilverData.execute self w = (r, w') →
  let source := PreprossecingSilverData.local_file_name self in
  let bucket := PreprossecingSilverData.bucket_name self in
  let prefix := PreprossecingSilverData.prefix_gcs_file_name self in
  (∀ q, ¬ PyPath.parent source // "error" `prefix_of` q →
        ¬ PyPath.parent source // "valid" `prefix_of` q →
        local w' !! q = local w !! q) ∧
  (∀ k, k ≠ (bucket, prefix +:+ "/" +:+ PyPath.stem source +:+ "_error.json") →
        k ≠ (bucket, prefix +:+ "/" +:+ PyPath.stem source +:+ "_valid.json") →
        remote w' !! k = remote w !! k).
Proof.
  intros Hrun. cbv zeta.
  set (P := λ q : Path,
         PyPath.parent (PreprossecingSilverData.local_file_name self) // "error"
           `prefix_of` q ∨
         PyPath.parent (PreprossecingSilverData.local_file_name self) // "valid"
           `prefix_of` q).
  set (Q := λ k : string * string,
         k = (PreprossecingSilverData.bucket_name self,
              PreprossecingSilverData.error_path_gcs self) ∨
         k = (PreprossecingSilverData.bucket_name self,
              PreprossecingSilverData.valid_path_gcs self)).
  assert (confined P Q (PreprossecingSilverData.execute self)) as Hconfined.
  { unfold PreprossecingSilverData.execute.
    apply confined_bind; [apply confined_read_file |]. intros [valid_items invalid_items].
    apply confined_bind.
    { apply confined_save_file. left. apply prefix_of_div_self. }
    intros _. apply confined_bind.
    { apply confined_save_file. right. apply prefix_of_div_self. }
    intros _. apply confined_bind.
    { apply confined_gcs_handler_blob; [done | by left]. }
    intros _. apply confined_bind.
    { apply confined_gcs_handler_blob; [done | by right]. }
    intros _. apply confined_bind.
    { apply confined_rmtree. intros q Hq. left.
      unfold PreprossecingSilverData.error_path_local in Hq.
      by rewrite parent_div in Hq. }
    intros _. apply confined_rmtree. intros q Hq. right.
    unfold PreprossecingSilverData.valid_path_local in Hq.
    by rewrite parent_div in Hq. }
  destruct (Hconfined _ _ _ Hrun) as [Hlocal Hremote]. split.
  - intros q Hqe Hqv. apply Hlocal. unfold P. tauto.
  - intros k Hke Hkv. apply Hremote. unfold Q.
    unfold PreprossecingSilverData.error_path_gcs,
      PreprossecingSilverData.valid_path_gcs,
      PreprossecingSilverData.error_path_local,
      PreprossecingSilverData.valid_path_local.
    rewrite !name_div. tauto.
Qed.

(** X2. Whatever its outcome, a gold run leaves every local file outside
    the [reconciliated] directory beside the operators' module as it was,
    and every blob other than [drug_reconciliated.json] of its bucket as it
    was; in particular it never writes to one of its four inputs lying
    elsewhere. *)
Theorem gold_touches_only_its_output (module_file : Path)
    (self : PreprossecingGoldData.t) (w w' : World) (r : Exc unit) :
  PreprossecingGoldData.execute module_file self w = (r, w') →
  (∀ q, ¬ PyPath.parent module_file // "reconciliated" `prefix_of` q →
        local w' !! q = local w !! q) ∧
  (∀ k, k ≠ (PreprossecingGoldData.bucket_name self, "drug_reconciliated.json") →
        remote w' !! k = remote w !! k).
Proof.
  intros Hrun.
  set (P := λ q : Path, PyPath.parent module_file // "reconciliated" `prefix_of` q).
  set (Q := λ k : string * string,
         k = (PreprossecingGoldData.bucket_name self, "drug_reconciliated.json")).
  assert (confined P Q (PreprossecingGoldData.execute module_file self)) as Hconfined.
  { unfold PreprossecingGoldData.execute.
    apply confined_bind; [apply confined_read_file |]. intros [? ?].
    apply confined_bind; [apply confined_read_file |]. intros [? ?].
    apply confined_bind; [apply confined_read_file |]. intros [? ?].
    apply confined_bind; [apply confined_read_file |]. intros [? ?].
    apply confined_bind.
    { apply confined_save_file. apply prefix_of_div_self. }
    intros _. apply confined_bind.
    { apply confined_gcs_handler_blob; [done |]. intros _.
      unfold Q. by rewrite reconciliated_blob_name. }
    intros _. apply confined_rmtree. intros q Hq.
    unfold P. by rewrite reconciliated_dir in Hq. }
  destruct (Hconfined _ _ _ Hrun) as [Hlocal Hremote]. split.
  - intros q Hq. by apply Hlocal.
  - intros k Hk. by apply Hremote.
Qed.

End Confinement.

(** ** The bronze operator and the blob names of the graph *)

Section MoreStringFacts.

Lemma append_nil_r (s : string) : s +:+ "" = s.
Proof. induction s as [|c s IH]; [done |]. by rewrite append_cons, IH. Qed.

Lemma append_assoc (a b c : string) : (a +:+ b) +:+ c = a +:+ b +:+ c.
Proof. induction a as [|x a IH]; [done |]. by rewrite !append_cons, IH. Qed.

Lemma rfind_cons_None (c d : ascii) (s : string) :
  PyStr.rfind c (String d s) = None ↔ d ≠ c ∧ PyStr.rfind c s = None.
Proof.
  simpl. destruct (PyStr.rfind c s); [naive_solver |].
  destruct (Ascii.eqb_spec d c); naive_solver.
Qed.

Lemma rfind_take_None (c : ascii) (i : nat) (s : string) :
  PyStr.rfind c s = None → PyStr.rfind c (PyStr.take i s) = None.
Proof.
  unfold PyStr.take. revert i. induction s as [|d s IH]; intros i Hs.
  - by destruct i.
  - destruct i as [|i]; [done |]. apply rfind_cons_None in Hs as [Hd Hs].
    cbn [String.substring]. apply rfind_cons_None. split; [done | by apply IH].
Qed.

(** The stem of a name without separator has no separator. *)
Lemma rfind_stem_None (p : Path) :
  PyStr.rfind "/" (PyPath.name p) = None → PyStr.rfind "/" (PyPath.stem p) = None.
Proof.
  intros Hname. unfold PyPath.stem.
  destruct (PyStr.rfind "." (PyPath.name p)) as [i|]; [| done].
  destruct (_ && _); [by apply rfind_take_None | done].
Qed.

(** A string is cut at its first separator in one way only. *)
Lemma append_slash_inj (a b c d : string) :
  PyStr.rfind "/" a = None → PyStr.rfind "/" c = None →
  a +:+ "/" +:+ b = c +:+ "/" +:+ d → a = c ∧ b = d.
Proof.
  revert c. induction a as [|x a IH]; intros c Ha Hc Heq.
  - destruct c as [|y c]; [by injection Heq |].
    apply rfind_cons_None in Hc as [Hy _]. rewrite append_cons in Heq.
    injection Heq as <- _. done.
  - apply rfind_cons_None in Ha as [Hx Ha]. rewrite append_cons in Heq.
    destruct c as [|y c]; [injection Heq as -> _; done |].
    apply rfind_cons_None in Hc as [_ Hc]. rewrite append_cons in Heq.
    injection Heq as <- Heq. destruct (IH c Ha Hc Heq) as [-> ->]. done.
Qed.

Lemma split_piece (c cur s : string) :
  PyStr.rfind "/" c = None →
  PyStr.split_nonempty "/" cur (c +:+ s) = PyStr.split_nonempty "/" (cur +:+ c) s.
Proof.
  revert cur. induction c as [|a c IH]; intros cur Hc.
  - by rewrite append_nil_r.
  - apply rfind_cons_None in Hc as [Ha Hc]. rewrite append_cons.
    cbn [PyStr.split_nonempty]. destruct (Ascii.eqb_spec a "/"); [done |].
    rewrite IH by done. by rewrite append_assoc.
Qed.

(** [Path(str(p)) = p] for a path of proper components. *)
Lemma of_str_to_str (p : Path) :
  Forall (λ c, c ≠ "" ∧ PyStr.rfind "/" c = None) p →
  PyPath.of_str (PyPath.to_str p) = p.
Proof.
  intros Hp. unfold PyPath.of_str.
  assert (∀ cur, PyStr.split_nonempty "/" cur (PyPath.to_str p)
                 = (if String.eqb cur "" then [] else [cur]) ++ p) as Hsplit.
  { induction Hp as [|c p [Hne Hc] _ IH]; intros cur.
    - simpl. by rewrite app_nil_r.
    - cbn [PyPath.to_str]. change ("/" +:+ c +:+ PyPath.to_str p)
        with (String "/" (c +:+ PyPath.to_str p)).
      cbn [PyStr.split_nonempty]. rewrite Ascii.eqb_refl.
      rewrite split_piece by done. rewrite IH.
      change ("" +:+ c) with c.
      destruct (String.eqb_spec c ""); [done |]. done. }
  apply (Hsplit "").
Qed.

End MoreStringFacts.

Section BronzeFacts.
Context `{Records} `{!Utils}.

(** X3. The bronze task that the graph creates for a file pushes that very
    file: when its run ends without an exception, the file existed, the
    bucket [servier-bronze] has gained its content under [<stem>/<name>],
    the local files are as before and the only call made is that push.
    The components of the path are proper names: not empty, without
    separator. *)
Theorem bronze_task_uploads_its_file (path_local_file : Path) (w w' : World) :
  Forall (λ c, c ≠ "" ∧ PyStr.rfind "/" c = None) path_local_file →
  PreprossecingBronzeData.execute (DagServier.bronze_operator path_local_file) w
    = (Ok tt, w') →
  let blob := PyPath.stem path_local_file +:+ "/" +:+ PyPath.name path_local_file in
  ∃ content,
    local w !! path_local_file = Some content ∧
    remote w' = <[("servier-bronze", blob) := content]> (remote w) ∧
    local w' = local w ∧
    calls w' = calls w ++
      [CGcsHandlerBlob "push" "servier-bronze"
         (PStr (PyPath.to_str path_local_file)) blob].
Proof.
  intros Hp. unfold PreprossecingBronzeData.execute, DagServier.bronze_operator.
  cbn [PreprossecingBronzeData.type_of_operation PreprossecingBronzeData.bucket_name
       PreprossecingBronzeData.local_file_name PreprossecingBronzeData.gcs_file_name].
  unfold gcs_handler_blob. intros (? & w1 & Hcall & Hpush)%bind_ok.
  apply call_ok in Hcall as [_ ->].
  unfold bind, get, raise, modify in Hpush. cbn [String.eqb Ascii.eqb Bool.eqb] in Hpush.
  cbn [fspath] in Hpush. rewrite of_str_to_str in Hpush by done.
  cbn [log local] in Hpush.
  destruct (local w !! path_local_file) as [content|]; [| done].
  injection Hpush as <-. by exists content.
Qed.

(** X4. Two files of different names get different blobs in the bronze
    bucket, so no raw file is pushed over another: the blob name
    [<stem>/<name>] determines the name. *)
Theorem bronze_blobs_differ_with_file_names (p q : Path) :
  PyStr.rfind "/" (PyPath.name p) = None →
  PyStr.rfind "/" (PyPath.name q) = None →
  PyPath.name p ≠ PyPath.name q →
  PreprossecingBronzeData.gcs_file_name (DagServier.bronze_operator p)
    ≠ PreprossecingBronzeData.gcs_file_name (DagServier.bronze_operator q).
Proof.
  intros Hp Hq Hne Heq. apply Hne. simpl in Heq.
  by apply append_slash_inj in Heq as [_ ?]; [| apply rfind_stem_None..].
Qed.

End BronzeFacts.

(** ** Runs that raise *)

Section FaultyRuns.
Context `{Records} `{!Utils}.

(** X5. When one of the four reads of the gold stage raises, the run
    raises the same fault at once: the later reads are not made, no file
    is saved, nothing is pushed or removed, and local files and bucket are
    as before. *)
Theorem gold_read_fault_aborts (module_file : Path) (self : PreprossecingGoldData.t)
    (w w1 : World) (e : Fault) :
  PreprossecingGoldData.read_sources self w = (Raise e, w1) →
  PreprossecingGoldData.execute module_file self w = (Raise e, w1) ∧
  local w1 = local w ∧
  remote w1 = remote w ∧
  ∃ n, 1 ≤ n ≤ 4 ∧
    calls w1 = calls w ++
      take n (map (λ p, CReadFile p (PyPath.stem p))
                [ PreprossecingGoldData.path_elements_drug self;
                  PreprossecingGoldData.path_elements_pubmed_json self;
                  PreprossecingGoldData.path_elements_pubmed_csv self;
                  PreprossecingGoldData.path_elements_clinical_trials self ]).
Proof.
  unfold PreprossecingGoldData.read_sources, PreprossecingGoldData.execute,
    bind, read_file, ret.
  destruct (read_outcome _ _ w) as [[d ?]|e1]; [| intros [= <- <-]].
  2: { split_and!; try done. exists 1. split; [lia | done]. }
  destruct (read_outcome _ _ (log _ w)) as [[pj ?]|e2]; [| intros [= <- <-]].
  2: { split_and!; try done. exists 2. split; [lia |]. simpl. by rewrite <- app_assoc. }
  destruct (read_outcome _ _ (log _ (log _ w))) as [[pc ?]|e3]; [| intros [= <- <-]].
  2: { split_and!; try done. exists 3. split; [lia |]. simpl. by rewrite <- !app_assoc. }
  destruct (read_outcome _ _ (log _ (log _ (log _ w)))) as [[ct ?]|e4];
    [done | intros [= <- <-]].
  split_and!; try done. exists 4. split; [lia |]. simpl. by rewrite <- !app_assoc.
Qed.

(** X6. When the bucket is out of reach (every storage call raises [e],
    nothing else faults), a silver run whose read succeeds and whose two
    output files can be written raises [e] at the first push: the second
    push and the two removals are never made, so both output files stay
    on disk, and the bucket is as before. *)
Theorem silver_unreachable_bucket_leaves_files (self : PreprossecingSilverData.t)
    (w : World) (valid_items : list Item) (invalid_items : list RawItem) (e : Fault) :
  (∀ c w0, fault c w0 = match c with
                        | CGcsHandlerBlob _ _ _ _ => Some e
                        | _ => None
                        end) →
  read_outcome (PreprossecingSilverData.local_file_name self)
    (PreprossecingSilverData.type_of_schema self) w
    = Ok (valid_items, invalid_items) →
  (∀ q, is_Some (local w !! q) →
        ¬ q `prefix_of` PreprossecingSilverData.error_path_local self ∧
        ¬ PreprossecingSilverData.error_path_local self `prefix_of` q ∧
        ¬ q `prefix_of` PreprossecingSilverData.valid_path_local self ∧
        ¬ PreprossecingSilverData.valid_path_local self `prefix_of` q) →
  ∃ w',
    PreprossecingSilverData.execute self w = (Raise e, w') ∧
    calls w' = calls w ++
      [ CReadFile (PreprossecingSilverData.local_file_name self)
          (PreprossecingSilverData.type_of_schema self);
        CSaveFile (InvalidItems invalid_items)
          (PreprossecingSilverData.error_path_local self);
        CSaveFile (ValidItems valid_items)
          (PreprossecingSilverData.valid_path_local self);
        CGcsHandlerBlob "push" (PreprossecingSilverData.bucket_name self)
          (PPath (PreprossecingSilverData.error_path_local self))
          (PreprossecingSilverData.error_path_gcs self) ] ∧
    local w' !! PreprossecingSilverData.error_path_local self
      = Some (dumps (InvalidItems invalid_items)) ∧
    local w' !! PreprossecingSilverData.valid_path_local self
      = Some (dumps (ValidItems valid_items)) ∧
    remote w' = remote w.
Proof.
  intros Hfault Hread Hfree.
  pose proof (error_path_ne_valid_path self) as Hne.
  assert (∀ q, q `prefix_of` PreprossecingSilverData.error_path_local self ∨
               PreprossecingSilverData.error_path_local self `prefix_of` q ∨
               q `prefix_of` PreprossecingSilverData.valid_path_local self ∨
               PreprossecingSilverData.valid_path_local self `prefix_of` q →
               local w !! q = None) as Hnone.
  { intros q Hq. apply eq_None_not_Some. intros Hsome.
    destruct (Hfree q Hsome) as (? & ? & ? & ?). tauto. }
  assert (¬ PreprossecingSilverData.error_path_local self
            `prefix_of` PreprossecingSilverData.valid_path_local self) as Hev
    by (by apply cousin_not_above).
  assert (¬ PreprossecingSilverData.valid_path_local self
            `prefix_of` PreprossecingSilverData.error_path_local self) as Hve
    by (by apply cousin_not_above).
  unfold PreprossecingSilverData.execute, bind at 1, read_file. rewrite Hread.
  unfold bind at 1. rewrite save_file_run; [| by rewrite Hfault | |]; simpl.
  2: { apply blocked_false_intro. auto. }
  2: { apply is_dir_false_intro. auto. }
  unfold bind at 1. rewrite save_file_run; [| by rewrite Hfault | |]; simpl.
  2: { apply blocked_false_intro. intros q Hq ?.
       rewrite lookup_insert_ne; [auto | by intros <-]. }
  2: { apply is_dir_false_intro. intros q Hq ?.
       rewrite lookup_insert_ne; [auto | by intros <-]. }
  unfold bind at 1, gcs_handler_blob, bind at 1, call. rewrite Hfault.
  eexists. split; [reflexivity |]. simpl. split_and!.
  - by rewrite <- !app_assoc.
  - by rewrite lookup_insert_ne, lookup_insert_eq.
  - by rewrite lookup_insert_eq.
  - done.
Qed.

(** X7. In the same situation a gold run whose four reads succeed raises
    [e] at its push: the removal is never made, so the result stays on
    disk as [reconciliated/drug_reconciliated.json], and the bucket is as
    before. *)
Theorem gold_unreachable_bucket_leaves_file (module_file : Path)
    (self : PreprossecingGoldData.t) (w w1 : World)
    (drug pubmed_json pubmed_csv clinical_trials : list Item * list RawItem)
    (e : Fault) :
  (∀ c w0, fault c w0 = match c with
                        | CGcsHandlerBlob _ _ _ _ => Some e
                        | _ => None
                        end) →
  PreprossecingGoldData.read_sources self w
    = (Ok (drug, pubmed_json, pubmed_csv, clinical_trials), w1) →
  (∀ q, is_Some (local w !! q) →
        ¬ q `prefix_of` PreprossecingGoldData.reconciliated_data_path module_file ∧
        ¬ PreprossecingGoldData.reconciliated_data_path module_file `prefix_of` q) →
  ∃ w',
    let drugs_reconciliated :=
      PreprossecingGoldData.reconcile_drugs drug.1 pubmed_json.1 pubmed_csv.1
        clinical_trials.1 in
    PreprossecingGoldData.execute module_file self w = (Raise e, w') ∧
    calls w' = calls w1 ++
      [ CSaveFile (ReconciledItems drugs_reconciliated)
          (PreprossecingGoldData.reconciliated_data_path module_file);
        CGcsHandlerBlob "push" (PreprossecingGoldData.bucket_name self)
          (PPath (PreprossecingGoldData.reconciliated_data_path module_file))
          "drug_reconciliated.json" ] ∧
    local w' !! PreprossecingGoldData.reconciliated_data_path module_file
      = Some (dumps (ReconciledItems drugs_reconciliated)) ∧
    remote w' = remote w.
Proof.
  intros Hfault Hreads Hfree.
  assert (∀ q, q `prefix_of` PreprossecingGoldData.reconciliated_data_path module_file ∨
               PreprossecingGoldData.reconciliated_data_path module_file `prefix_of` q →
               local w !! q = None) as Hnone.
  { intros q Hq. apply eq_None_not_Some. intros Hsome.
    destruct (Hfree q Hsome) as (? & ?). tauto. }
  pose proof (read_sources_ok _ _ _ _ _ _ _ Hreads)
    as (Hr1 & Hr2 & Hr3 & Hr4 & Hlocal & Hremote & Hcalls).
  destruct drug as [d ?], pubmed_json as [pj ?], pubmed_csv as [pc ?],
    clinical_trials as [ct ?].
  unfold PreprossecingGoldData.execute, read_file.
  unfold bind at 1. rewrite Hr1. unfold bind at 1. rewrite Hr2.
  unfold bind at 1. rewrite Hr3. unfold bind at 1. rewrite Hr4.
  unfold bind at 1. rewrite save_file_run; [| by rewrite Hfault | |]; simpl.
  2: { apply blocked_false_intro. auto. }
  2: { apply is_dir_false_intro. auto. }
  unfold bind at 1, gcs_handler_blob, bind at 1, call. rewrite Hfault.
  eexists. cbv zeta. split; [reflexivity |]. simpl. split_and!.
  - rewrite Hcalls, reconciliated_blob_name. simpl. by rewrite <- !app_assoc.
  - by rewrite lookup_insert_eq.
  - done.
Qed.

End FaultyRuns.

Section EmptyInput.
Context `{Records} `{!Utils}.

(** X13. The gold stage has no guard for an empty drug sequence: when no
    drug record is valid the run still saves and pushes a result, the
    empty sequence, whatever the PubMed and clinical-trials records
    are. *)
Theorem gold_without_drugs_pushes_empty_result (module_file : Path)
    (self : PreprossecingGoldData.t) (w w1 w' : World)
    (drug pubmed_json pubmed_csv clinical_trials : list Item * list RawItem) :
  PreprossecingGoldData.read_sources self w
    = (Ok (drug, pubmed_json, pubmed_csv, clinical_trials), w1) →
  drug.1 = [] →
  PreprossecingGoldData.execute module_file self w = (Ok tt, w') →
  In (CSaveFile (ReconciledItems [])
        (PreprossecingGoldData.reconciliated_data_path module_file)) (calls w') ∧
  remote w' !! (PreprossecingGoldData.bucket_name self, "drug_reconciliated.json")
    = Some (dumps (ReconciledItems [])).
Proof.
  intros Hreads Hempty Hrun.
  apply gold_run_ok in Hrun
    as (drug' & pj & pc & ct & w1' & Hreads' & Hcalls & Hremote & _).
  rewrite Hreads in Hreads'. injection Hreads' as <- <- <- <- <-.
  rewrite reconcile_drugs_map, Hempty in Hcalls, Hremote. simpl in Hcalls, Hremote.
  rewrite reconciliated_blob_name in Hremote. split.
  - rewrite Hcalls. apply in_or_app. right. left. reflexivity.
  - by rewrite Hremote, lookup_insert_eq.
Qed.

End EmptyInput.

(** ** Two silver runs on files of one stem *)

Section SilverCollision.
Context `{Records} `{!Utils}.
Import PreprossecingSilverData.

(** X8. The blobs of a silver run are named after the stem of the file,
    not after its name: when two silver operators share bucket, prefix and
    stem and run one after the other without an exception, the bucket
    ends as if only the second had run, the partitions of the first being
    overwritten.  The silver operators that the graph creates for
    [pubmed.csv] and [pubmed.json] are in this case, and they share their
    two local output files as well. *)
Theorem silver_same_stem_overwrites :
  (∀ (first second : t) (w w1 w2 : World),
     bucket_name first = bucket_name second →
     prefix_gcs_file_name first = prefix_gcs_file_name second →
     PyPath.stem (local_file_name first) = PyPath.stem (local_file_name second) →
     execute first w = (Ok tt, w1) →
     execute second w1 = (Ok tt, w2) →
     ∃ valid_items invalid_items,
       read_outcome (local_file_name second) (type_of_schema second) w1
         = Ok (valid_items, invalid_items) ∧
       remote w2 =
         <[(bucket_name second, valid_path_gcs second) :=
             dumps (ValidItems valid_items)]>
           (<[(bucket_name second, error_path_gcs second) :=
                dumps (InvalidItems invalid_items)]> (remote w))) ∧
  (∀ root : Path,
     let csv := DagServier.silver_operator (DagServier.path_file_pubmed_csv root) in
     let json := DagServier.silver_operator (DagServier.path_file_pubmed_json root) in
     bucket_name csv = bucket_name json ∧
     prefix_gcs_file_name csv = prefix_gcs_file_name json ∧
     PyPath.stem (local_file_name csv) = PyPath.stem (local_file_name json) ∧
     error_path_local csv = error_path_local json ∧
     valid_path_local csv = valid_path_local json ∧
     error_path_gcs csv = "pubmed/pubmed_error.json" ∧
     error_path_gcs json = "pubmed/pubmed_error.json" ∧
     valid_path_gcs csv = "pubmed/pubmed_valid.json" ∧
     valid_path_gcs json = "pubmed/pubmed_valid.json").
Proof.
  split.
  - intros first second w w1 w2 Hbucket Hprefix Hstem Hrun1 Hrun2.
    apply silver_run_ok in Hrun1 as (v1 & i1 & _ & _ & Hremote1 & _).
    apply silver_run_ok in Hrun2 as (v2 & i2 & Hread2 & _ & Hremote2 & _).
    exists v2, i2. split; [done |].
    rewrite Hremote2, Hremote1.
    assert (error_path_gcs first = error_path_gcs second) as ->.
    { unfold error_path_gcs, error_path_local. by rewrite !name_div, Hprefix, Hstem. }
    assert (valid_path_gcs first = valid_path_gcs second) as ->.
    { unfold valid_path_gcs, valid_path_local. by rewrite !name_div, Hprefix, Hstem. }
    rewrite Hbucket. apply map_eq. intros k.
    rewrite !lookup_insert. by repeat case_decide.
  - intros root. cbv zeta.
    unfold error_path_gcs, valid_path_gcs, error_path_local, valid_path_local,
      DagServier.silver_operator.
    cbn [bucket_name prefix_gcs_file_name local_file_name].
    unfold DagServier.path_file_pubmed_csv, DagServier.path_file_pubmed_json.
    rewrite !name_div, !parent_div, !stem_div. done.
Qed.

End SilverCollision.

(** ** More on the workflow graph *)

Section DagOrder.
Import Airflow DagServier.

Lemma elem_of_loop_task_ids (task_id : string) (order : list Path) :
  task_id ∈ loop_task_ids order ↔
  ∃ p, p ∈ order ∧ (task_id = bronze_task_id p ∨ task_id = silver_task_id p).
Proof.
  induction order as [|p order IH].
  - split; [by intros ?%elem_of_nil | by intros (p & ?%elem_of_nil & _)].
  - rewrite loop_task_ids_cons, !elem_of_cons, IH. split.
    + intros [-> | [-> | (p' & Hp' & Hid)]].
      * exists p. split; [by left | by left].
      * exists p. split; [by left | by right].
      * exists p'. split; [by right | done].
    + intros (p' & [-> | Hp']%elem_of_cons & Hid); [tauto |].
      right. right. by exists p'.
Qed.

Lemma dag_eq (d1 d2 : DAG) : tasks d1 = tasks d2 → edges d1 = edges d2 → d1 = d2.
Proof. destruct d1, d2. simpl. by intros -> ->. Qed.

(** Wiring the paths in another order gives the same graph. *)
Lemma wired_permutation (s e g : string) (d : DAG) (order1 order2 : list Path) :
  order1 ≡ₚ order2 → NoDup (loop_task_ids order1) →
  foldl (wired s e g) d order1 = foldl (wired s e g) d order2.
Proof.
  intros Hperm Hnodup1.
  assert (loop_task_ids order1 ≡ₚ loop_task_ids order2) as Hids.
  { unfold loop_task_ids. by apply Permutation_flat_map. }
  assert (NoDup (loop_task_ids order2)) as Hnodup2 by (by rewrite <- Hids).
  apply dag_eq.
  - apply map_eq. intros task_id.
    destruct (decide (task_id ∈ loop_task_ids order1)) as [Hin | Hout].
    + apply elem_of_loop_task_ids in Hin as (p & Hp1 & Hid).
      assert (p ∈ order2) as Hp2 by (by rewrite <- Hperm).
      destruct (tasks_wired_to s e g order1 d p Hnodup1 Hp1) as [Hb1 Hs1].
      destruct (tasks_wired_to s e g order2 d p Hnodup2 Hp2) as [Hb2 Hs2].
      destruct Hid as [-> | ->]; congruence.
    + rewrite !tasks_wired_other; [done | by rewrite <- Hids | done].
  - apply set_eq. intros edge. rewrite !edges_wired.
    split; (intros [? | (p & Hp & ?)]; [by left | right; exists p; split; [| done]]).
    + by rewrite <- Hperm.
    + by rewrite Hperm.
Qed.

(** Whatever the order of the loop, the graph built is the one wired in
    the order of the source. *)
Lemma build_canonical (root : Path) (order : list Path) :
  order ≡ₚ all_paths_local root →
  build root order Airflow.empty
  = (Ok tt, foldl (wired "start_point" "end_point" gold_task_id) (seeded root)
              (all_paths_local root)).
Proof.
  intros Hperm. destruct (build_ok root order Hperm) as [-> Hnodup].
  f_equal. by apply wired_permutation.
Qed.

(** X9. The graph does not depend on the order in which Python iterates
    over the set [all_paths_local]: every order builds the same tasks and
    the same edges. *)
Theorem graph_independent_of_iteration_order (root : Path) (order1 order2 : list Path) :
  order1 ≡ₚ all_paths_local root →
  order2 ≡ₚ all_paths_local root →
  ∃ dag, build root order1 Airflow.empty = (Ok tt, dag) ∧
         build root order2 Airflow.empty = (Ok tt, dag).
Proof.
  intros Hperm1 Hperm2. eexists.
  split; by apply build_canonical.
Qed.

Lemma schedule_from_sound (d : DAG) (finished : gset string) (ts : list string) :
  schedule_from d finished ts = true →
  rtc (step d) {| started := finished; succeeded := finished |}
    {| started := list_to_set ts ∪ finished;
       succeeded := list_to_set ts ∪ finished |}.
Proof.
  revert finished. induction ts as [|t ts IH]; intros finished Hok.
  - simpl. rewrite (left_id_L ∅ (∪)). apply rtc_refl.
  - cbn [schedule_from] in Hok.
    apply andb_true_iff in Hok as [Hok Hrest].
    apply andb_true_iff in Hok as [Hok Hup].
    apply andb_true_iff in Hok as [Htask Hnew].
    apply bool_decide_eq_true in Htask, Hnew, Hup.
    assert (list_to_set (t :: ts) ∪ finished
            = list_to_set ts ∪ ({[ t ]} ∪ finished) :> gset string) as ->
      by set_solver.
    eapply rtc_l; [by apply (step_start d _ t) |]. cbn [started succeeded].
    eapply rtc_l; [apply (step_success d _ t); cbn [started]; set_solver |].
    cbn [started succeeded]. by apply IH.
Qed.

(** The graph of the source with its task ids written out. *)
Lemma canonical_schedule (root : Path) :
  schedule_from
    (foldl (wired "start_point" "end_point" gold_task_id) (seeded root)
       (all_paths_local root))
    ∅ (stage_order (all_paths_local root)) = true.
Proof.
  unfold stage_order, all_paths_local, bronze_task_id, silver_task_id,
    path_file_clinical_trials, path_drugs, path_file_pubmed_csv, path_file_pubmed_json.
  cbn [foldl map app]. unfold wired, bronze_task_id, silver_task_id.
  rewrite !name_div. vm_compute. reflexivity.
Qed.

(** X10. The graph can be run to the end: in whatever order it was built,
    there is a run, stage by stage, in which every task of the graph has
    succeeded; no dependency cycle or missing task blocks it. *)
Theorem graph_can_complete (root : Path) (order : list Path) :
  order ≡ₚ all_paths_local root →
  ∃ dag run,
    build root order Airflow.empty = (Ok tt, dag) ∧
    reachable dag run ∧
    ∀ task_id, is_Some (tasks dag !! task_id) → task_id ∈ succeeded run.
Proof.
  intros Hperm. eexists _, _. split; [by apply build_canonical |].
  split.
  - unfold reachable, initial.
    pose proof (schedule_from_sound _ _ _ (canonical_schedule root)) as Hrun.
    rewrite (right_id_L ∅ (∪)) in Hrun. exact Hrun.
  - cbn [succeeded]. intros task_id [op Hop].
    apply elem_of_list_to_set. unfold stage_order.
    apply tasks_wired_from in Hop as [Hseed | (p & Hp & Hop)].
    + simpl in Hseed.
      apply lookup_insert_Some in Hseed as [[<- _] | [_ Hseed]].
      { apply list_elem_of_further. rewrite !elem_of_app. right. right.
        apply list_elem_of_here. }
      apply lookup_insert_Some in Hseed as [[<- _] | [_ Hseed]].
      { apply list_elem_of_further. rewrite !elem_of_app. right. right.
        apply list_elem_of_further, list_elem_of_here. }
      apply lookup_insert_Some in Hseed as [[<- _] | [_ Hseed]]; [| done].
      apply list_elem_of_here.
    + apply list_elem_of_further. rewrite !elem_of_app.
      destruct Hop as [[-> _] | [-> _]].
      * left. by apply list_elem_of_fmap_2.
      * right. left. by apply list_elem_of_fmap_2.
Qed.

(** X14. The graph has no dependency beyond the chain of each file: the
    start has nothing upstream, the bronze task of a file has the start
    alone, its silver task has its own bronze task alone, the gold task
    has the four silver tasks and the end has the gold task alone.  No
    task of one file waits for a task of another file. *)
Theorem graph_has_no_other_dependency (root : Path) (order : list Path) :
  order ≡ₚ all_paths_local root →
  ∃ dag,
    build root order Airflow.empty = (Ok tt, dag) ∧
    upstream dag "start_point" = ∅ ∧
    (∀ p, p ∈ all_paths_local root →
       upstream dag (bronze_task_id p) = {[ "start_point" ]} ∧
       upstream dag (silver_task_id p) = {[ bronze_task_id p ]}) ∧
    upstream dag gold_task_id
      = list_to_set (map silver_task_id (all_paths_local root)) ∧
    upstream dag "end_point" = {[ gold_task_id ]}.
Proof.
  intros Hperm. eexists. split; [by apply build_canonical |].
  unfold upstream, all_paths_local, path_file_clinical_trials, path_drugs,
    path_file_pubmed_csv, path_file_pubmed_json.
  cbn [foldl map]. unfold wired. cbn [edges seeded].
  split_and!.
  - unfold bronze_task_id, silver_task_id. rewrite !name_div.
    vm_compute. reflexivity.
  - intros p Hp.
    repeat (apply elem_of_cons in Hp as [-> | Hp]);
      [| | | | by apply elem_of_nil in Hp];
      unfold bronze_task_id, silver_task_id; rewrite !name_div;
      split; vm_compute; reflexivity.
  - unfold bronze_task_id, silver_task_id. rewrite !name_div.
    vm_compute. reflexivity.
  - unfold bronze_task_id, silver_task_id. rewrite !name_div.
    vm_compute. reflexivity.
Qed.

End DagOrder.

(** ** The further properties on the small run *)

Lemma demo_world_files (q : Path) :
  is_Some (local Demo.world !! q) → q ∈ DagServier.all_paths_local Demo.root.
Proof.
  intros [x Hq]. unfold Demo.world in Hq. cbn [local] in Hq.
  apply elem_of_list_to_map_2 in Hq.
  apply list_elem_of_fmap in Hq as (p & [= -> _] & Hp). exact Hp.
Qed.

Lemma silver_touches_only_its_outputs_witness :
  ∃ r w',
    @PreprossecingSilverData.execute Demo.records Demo.offline_utils
      Demo.silver_drugs Demo.world = (r, w') ∧
    r = Raise (OtherError "bucket out of reach") ∧
    local w' !! DagServier.path_file_pubmed_csv Demo.root
      = local Demo.world !! DagServier.path_file_pubmed_csv Demo.root.
Proof.
  assert (@PreprossecingSilverData.execute Demo.records Demo.offline_utils
            Demo.silver_drugs Demo.world
          = ((@PreprossecingSilverData.execute Demo.records Demo.offline_utils
                Demo.silver_drugs Demo.world).1,
             (@PreprossecingSilverData.execute Demo.records Demo.offline_utils
                Demo.silver_drugs Demo.world).2))
    as Hrun by (vm_compute; reflexivity).
  destruct (@silver_touches_only_its_outputs Demo.records Demo.offline_utils
              _ _ _ _ Hrun) as [Hlocal _].
  eexists _, _. split; [exact Hrun |]. split; [vm_compute; reflexivity |].
  apply Hlocal.
  - intros Hpre. apply (bool_decide_pack _) in Hpre. vm_compute in Hpre. exact Hpre.
  - intros Hpre. apply (bool_decide_pack _) in Hpre. vm_compute in Hpre. exact Hpre.
Defined.

Lemma gold_touches_only_its_output_witness :
  ∃ r w',
    @PreprossecingGoldData.execute Demo.records Demo.utils Demo.module_file
      Demo.gold Demo.world = (r, w') ∧
    local w' !! DagServier.path_drugs Demo.root
      = local Demo.world !! DagServier.path_drugs Demo.root.
Proof.
  assert (@PreprossecingGoldData.execute Demo.records Demo.utils Demo.module_file
            Demo.gold Demo.world
          = ((@PreprossecingGoldData.execute Demo.records Demo.utils Demo.module_file
                Demo.gold Demo.world).1,
             (@PreprossecingGoldData.execute Demo.records Demo.utils Demo.module_file
                Demo.gold Demo.world).2))
    as Hrun by (vm_compute; reflexivity).
  destruct (@gold_touches_only_its_output Demo.records Demo.utils _ _ _ _ _ Hrun)
    as [Hlocal _].
  eexists _, _. split; [exact Hrun |].
  apply Hlocal.
  intros Hpre. apply (bool_decide_pack _) in Hpre. vm_compute in Hpre. exact Hpre.
Defined.

Lemma bronze_task_uploads_its_file_witness :
  ∃ w',
    @PreprossecingBronzeData.execute Demo.records Demo.utils
      (DagServier.bronze_operator (DagServier.path_drugs Demo.root)) Demo.world
      = (Ok tt, w') ∧
    remote w' = <[("servier-bronze", "drugs/drugs.csv") := "rows"]> (remote Demo.world).
Proof.
  assert (@PreprossecingBronzeData.execute Demo.records Demo.utils
            (DagServier.bronze_operator (DagServier.path_drugs Demo.root)) Demo.world
          = (Ok tt, (@PreprossecingBronzeData.execute Demo.records Demo.utils
                       (DagServier.bronze_operator (DagServier.path_drugs Demo.root))
                       Demo.world).2))
    as Hrun by (vm_compute; reflexivity).
  assert (Forall (λ c, c ≠ "" ∧ PyStr.rfind "/" c = None)
            (DagServier.path_drugs Demo.root)) as Hwf
    by (apply (bool_decide_unpack _); vm_compute; exact I).
  destruct (@bronze_task_uploads_its_file Demo.records Demo.utils
              (DagServier.path_drugs Demo.root) Demo.world _ Hwf Hrun)
    as (content & Hfile & Hremote & _).
  eexists. split; [exact Hrun |].
  vm_compute in Hfile. injection Hfile as <-. exact Hremote.
Defined.

Lemma bronze_blobs_differ_with_file_names_witness :
  PreprossecingBronzeData.gcs_file_name
    (DagServier.bronze_operator (DagServier.path_file_pubmed_csv Demo.root))
  ≠ PreprossecingBronzeData.gcs_file_name
      (DagServier.bronze_operator (DagServier.path_file_pubmed_json Demo.root)).
Proof.
  apply bronze_blobs_differ_with_file_names.
  - vm_compute. reflexivity.
  - vm_compute. reflexivity.
  - vm_compute. discriminate.
Defined.

Lemma gold_read_fault_aborts_witness :
  ∃ w1,
    @PreprossecingGoldData.execute Demo.records Demo.utils Demo.module_file
      Demo.gold Demo.broken_world = (Raise (ValueError "malformed input"), w1) ∧
    local w1 = local Demo.broken_world ∧
    remote w1 = remote Demo.broken_world.
Proof.
  assert (@PreprossecingGoldData.read_sources Demo.records Demo.utils Demo.gold
            Demo.broken_world
          = (Raise (ValueError "malformed input"),
             (@PreprossecingGoldData.read_sources Demo.records Demo.utils Demo.gold
                Demo.broken_world).2))
    as Hreads by (vm_compute; reflexivity).
  destruct (@gold_read_fault_aborts Demo.records Demo.utils Demo.module_file
              _ _ _ _ Hreads) as (Hrun & Hlocal & Hremote & _).
  eexists. split; [exact Hrun |]. split; [exact Hlocal | exact Hremote].
Defined.

Lemma silver_unreachable_bucket_leaves_files_witness :
  ∃ w',
    @PreprossecingSilverData.execute Demo.records Demo.offline_utils
      Demo.silver_drugs Demo.world
      = (Raise (OtherError "bucket out of reach"), w') ∧
    local w' !! PreprossecingSilverData.error_path_local Demo.silver_drugs
      = Some "invalid 1" ∧
    local w' !! PreprossecingSilverData.valid_path_local Demo.silver_drugs
      = Some "valid 2" ∧
    remote w' = remote Demo.world.
Proof.
  destruct (@silver_unreachable_bucket_leaves_files Demo.records Demo.offline_utils
              Demo.silver_drugs Demo.world
              [Demo.EDrug Demo.aspirin; Demo.EDrug Demo.betaline] ["d9,"]
              (OtherError "bucket out of reach"))
    as (w' & Hrun & _ & He & Hv & Hremote).
  - intros c w0. reflexivity.
  - vm_compute. reflexivity.
  - intros q Hq%demo_world_files.
    repeat (apply elem_of_cons in Hq as [-> | Hq]);
      [| | | | by apply elem_of_nil in Hq];
      split_and!; intros Hpre; apply (bool_decide_pack _) in Hpre;
      vm_compute in Hpre; exact Hpre.
  - exists w'. split; [exact Hrun |]. split; [exact He |]. split; [exact Hv | exact Hremote].
Defined.

Lemma gold_unreachable_bucket_leaves_file_witness :
  ∃ w',
    @PreprossecingGoldData.execute Demo.records Demo.offline_utils Demo.module_file
      Demo.gold Demo.world = (Raise (OtherError "bucket out of reach"), w') ∧
    local w' !! PreprossecingGoldData.reconciliated_data_path Demo.module_file
      = Some "reconciled 2" ∧
    remote w' = remote Demo.world.
Proof.
  assert (@PreprossecingGoldData.read_sources Demo.records Demo.offline_utils Demo.gold
            Demo.world
          = (Ok (([Demo.EDrug Demo.aspirin; Demo.EDrug Demo.betaline], ["d9,"]),
                 ([Demo.EMention Demo.nejm; Demo.EMention Demo.lancet], []),
                 ([Demo.EMention Demo.nejm; Demo.EMention Demo.lancet], []),
                 ([Demo.EMention Demo.trial], ["NCT2,,,"])),
             (@PreprossecingGoldData.read_sources Demo.records Demo.offline_utils
                Demo.gold Demo.world).2))
    as Hreads by (vm_compute; reflexivity).
  assert (∀ q, is_Some (local Demo.world !! q) →
            ¬ q `prefix_of` PreprossecingGoldData.reconciliated_data_path
                              Demo.module_file ∧
            ¬ PreprossecingGoldData.reconciliated_data_path Demo.module_file
                `prefix_of` q) as Hfree.
  { intros q Hq%demo_world_files.
    repeat (apply elem_of_cons in Hq as [-> | Hq]);
      [| | | | by apply elem_of_nil in Hq];
      split_and!; intros Hpre; apply (bool_decide_pack _) in Hpre;
      vm_compute in Hpre; exact Hpre. }
  destruct (@gold_unreachable_bucket_leaves_file Demo.records Demo.offline_utils
              Demo.module_file Demo.gold Demo.world _ _ _ _ _
              (OtherError "bucket out of reach") (λ c w0, eq_refl) Hreads Hfree)
    as (w' & Hrun & _ & Hfile & Hremote).
  exists w'. split; [exact Hrun |]. split; [exact Hfile | exact Hremote].
Defined.

Lemma silver_same_stem_overwrites_witness :
  ∃ w1 w2,
    @PreprossecingSilverData.execute Demo.records Demo.utils
      (DagServier.silver_operator (DagServier.path_file_pubmed_csv Demo.root))
      Demo.world = (Ok tt, w1) ∧
    @PreprossecingSilverData.execute Demo.records Demo.utils
      (DagServier.silver_operator (DagServier.path_file_pubmed_json Demo.root))
      w1 = (Ok tt, w2) ∧
    size (remote w2) = 2.
Proof.
  set (csv := DagServier.silver_operator (DagServier.path_file_pubmed_csv Demo.root)).
  set (json := DagServier.silver_operator (DagServier.path_file_pubmed_json Demo.root)).
  set (w1 := (@PreprossecingSilverData.execute Demo.records Demo.utils csv Demo.world).2).
  assert (@PreprossecingSilverData.execute Demo.records Demo.utils csv Demo.world
          = (Ok tt, w1)) as Hrun1 by (vm_compute; reflexivity).
  assert (@PreprossecingSilverData.execute Demo.records Demo.utils json w1
          = (Ok tt, (@PreprossecingSilverData.execute Demo.records Demo.utils
                       json w1).2)) as Hrun2 by (vm_compute; reflexivity).
  destruct (@silver_same_stem_overwrites Demo.records Demo.utils) as [Hover Hpipeline].
  destruct (Hpipeline Demo.root) as (Hbucket & Hprefix & Hstem & _).
  destruct (Hover csv json _ _ _ Hbucket Hprefix Hstem Hrun1 Hrun2)
    as (valid_items & invalid_items & _ & Hremote).
  eexists _, _. split; [exact Hrun1 |]. split; [exact Hrun2 |].
  rewrite Hremote. vm_compute. reflexivity.
Defined.

Lemma graph_independent_of_iteration_order_witness :
  ∃ dag,
    DagServier.build Demo.root (DagServier.all_paths_local Demo.root) Airflow.empty
      = (Ok tt, dag) ∧
    DagServier.build Demo.root (reverse (DagServier.all_paths_local Demo.root))
      Airflow.empty = (Ok tt, dag).
Proof.
  apply graph_independent_of_iteration_order.
  - reflexivity.
  - apply reverse_Permutation.
Defined.

Lemma graph_can_complete_witness :
  ∃ dag run,
    DagServier.build Demo.root (DagServier.all_paths_local Demo.root) Airflow.empty
      = (Ok tt, dag) ∧
    Airflow.reachable dag run ∧
    DagServier.gold_task_id ∈ Airflow.succeeded run.
Proof.
  destruct (graph_can_complete Demo.root (DagServier.all_paths_local Demo.root))
    as (dag & run & Hbuild & Hrun & Hall).
  - reflexivity.
  - exists dag, run. split; [exact Hbuild |]. split; [exact Hrun |].
    apply Hall.
    destruct (build_ok Demo.root (DagServier.all_paths_local Demo.root)) as [Hb _];
      [reflexivity |].
    rewrite Hb in Hbuild. injection Hbuild as <-.
    vm_compute. eexists. reflexivity.
Defined.

Lemma graph_has_no_other_dependency_witness :
  ∃ dag,
    DagServier.build Demo.root (DagServier.all_paths_local Demo.root) Airflow.empty
      = (Ok tt, dag) ∧
    Airflow.upstream dag "end_point" = {[ DagServier.gold_task_id ]}.
Proof.
  destruct (graph_has_no_other_dependency Demo.root
              (DagServier.all_paths_local Demo.root))
    as (dag & Hbuild & _ & _ & _ & Hend).
  - reflexivity.
  - exists dag. split; [exact Hbuild | exact Hend].
Defined.

Lemma silver_run_succeeds_witness :
  ∃ w', @PreprossecingSilverData.execute Demo.records Demo.utils Demo.silver_drugs
          Demo.world = (Ok tt, w').
Proof.
  apply (@silver_run_succeeds Demo.records Demo.utils Demo.silver_drugs Demo.world
           [Demo.EDrug Demo.aspirin; Demo.EDrug Demo.betaline] ["d9,"]).
  - intros c w0. reflexivity.
  - vm_compute. reflexivity.
  - intros q Hq%demo_world_files.
    repeat (apply elem_of_cons in Hq as [-> | Hq]);
      [| | | | by apply elem_of_nil in Hq];
      split_and!; intros Hpre; apply (bool_decide_pack _) in Hpre;
      vm_compute in Hpre; exact Hpre.
Defined.

Lemma gold_run_succeeds_witness :
  ∃ w', @PreprossecingGoldData.execute Demo.records Demo.utils Demo.module_file
          Demo.gold Demo.world = (Ok tt, w').
Proof.
  assert (@PreprossecingGoldData.read_sources Demo.records Demo.utils Demo.gold
            Demo.world
          = (Ok (([Demo.EDrug Demo.aspirin; Demo.EDrug Demo.betaline], ["d9,"]),
                 ([Demo.EMention Demo.nejm; Demo.EMention Demo.lancet], []),
                 ([Demo.EMention Demo.nejm; Demo.EMention Demo.lancet], []),
                 ([Demo.EMention Demo.trial], ["NCT2,,,"])),
             (@PreprossecingGoldData.read_sources Demo.records Demo.utils
                Demo.gold Demo.world).2))
    as Hreads by (vm_compute; reflexivity).
  apply (@gold_run_succeeds Demo.records Demo.utils Demo.module_file Demo.gold
           Demo.world _ _ _ _ _ (λ c w0, eq_refl) Hreads).
  intros q Hq%demo_world_files.
  repeat (apply elem_of_cons in Hq as [-> | Hq]);
    [| | | | by apply elem_of_nil in Hq];
    split_and!; intros Hpre; apply (bool_decide_pack _) in Hpre;
    vm_compute in Hpre; exact Hpre.
Defined.

Lemma gold_without_drugs_pushes_empty_result_witness :
  ∃ w',
    @PreprossecingGoldData.execute Demo.records Demo.empty_utils Demo.module_file
      Demo.gold Demo.world = (Ok tt, w') ∧
    remote w' !! ("servier-gold", "drug_reconciliated.json") = Some "reconciled 0".
Proof.
  assert (@PreprossecingGoldData.read_sources Demo.records Demo.empty_utils Demo.gold
            Demo.world
          = (Ok (([], []), ([], []), ([], []), ([], [])),
             (@PreprossecingGoldData.read_sources Demo.records Demo.empty_utils
                Demo.gold Demo.world).2))
    as Hreads by (vm_compute; reflexivity).
  assert (@PreprossecingGoldData.execute Demo.records Demo.empty_utils
            Demo.module_file Demo.gold Demo.world
          = (Ok tt, (@PreprossecingGoldData.execute Demo.records Demo.empty_utils
                       Demo.module_file Demo.gold Demo.world).2))
    as Hrun by (vm_compute; reflexivity).
  destruct (@gold_without_drugs_pushes_empty_result Demo.records Demo.empty_utils
              Demo.module_file Demo.gold _ _ _ _ _ _ _ Hreads eq_refl Hrun)
    as [_ Hremote].
  eexists. split; [exact Hrun | exact Hremote].
Defined.
